(** * The catalog store of resources/lib/database_handler.py

    A shallow embedding of [DB_Handler]: the three SQLite tables are lists of
    rows in rowid order, every SQL statement of the module is a function on
    those lists, and the Python glue around the statements (truthiness tests,
    [fetchone], the list comprehensions, the row mapping and its exceptions)
    is written out next to it. *)

From Stdlib Require Import String Ascii List Bool NArith Sorted Permutation Lia.
From stdpp Require Import base list strings gmap.
Import ListNotations.
Local Open Scope string_scope.

(** ** Values *)

(** What a TEXT column holds and what a caller passes for a parameter: a byte
    string ([text_factory = str]) or NULL / Python's [None]. *)
Definition sqlval : Type := option string.

(** Python exceptions the module can end in. *)
Inductive exn : Type :=
  | TypeError       (* subscripting [None] *)
  | ValueError      (* raised by [content_item_from_db] *)
  | IntegrityError. (* sqlite3: NOT NULL constraint failed *)

Inductive result (A : Type) : Type :=
  | OK (a : A)
  | Raise (e : exn).
Arguments OK {A} a.
Arguments Raise {A} e.

(** Sequencing: an exception skips the rest. *)
#[global] Instance result_ret : MRet result := @OK.
#[global] Instance result_bind : MBind result := fun A B k m =>
  match m with
  | OK a => k a
  | Raise e => Raise e
  end.

(** A list comprehension [[f(x) for x in rows]] whose body may raise: the
    first exception ends the comprehension. *)
Fixpoint comprehension {A B} (f : A -> result B) (rows : list A) : result (list B) :=
  match rows with
  | [] => OK []
  | x :: rest =>
      y ← f x;
      ys ← comprehension f rest;
      OK (y :: ys)
  end.

Definition raises {A} (m : result A) : bool :=
  match m with
  | OK _ => false
  | Raise _ => true
  end.

(** ** SQL expressions used by the statements *)

(** [col = ?] in a WHERE clause: true only when both sides are text and
    equal; a NULL on either side never selects the row. *)
Definition sql_eq (a b : sqlval) : bool :=
  match a, b with
  | Some x, Some y => String.eqb x y
  | _, _ => false
  end.

(** Python's [x == 'literal']. *)
Definition py_eq (a : sqlval) (lit : string) : bool :=
  match a with
  | Some x => String.eqb x lit
  | None => false
  end.

(** Python's truth value of an optional string argument ([if status:]). *)
Definition truthy (a : sqlval) : bool :=
  match a with
  | Some x => negb (String.eqb x "")
  | None => false
  end.

(** SQLite folds only the 26 ASCII letters when LIKE compares. *)
Definition sqlite3Tolower (c : ascii) : ascii :=
  let n := N_of_ascii c in
  if ((65 <=? n) && (n <=? 90))%N then ascii_of_N (n + 32) else c.

(** A LIKE pattern: literal characters and [%]. The one pattern of the
    module, ['the %'], has neither [_] nor an ESCAPE clause. *)
Inductive like_tok : Type :=
  | Lit (c : ascii)
  | Percent.

Fixpoint like_toks (pat : string) : list like_tok :=
  match pat with
  | EmptyString => []
  | String c pat' =>
      (if Ascii.eqb c "%" then Percent else Lit c) :: like_toks pat'
  end.

Fixpoint like_match (pat : list like_tok) : string -> bool :=
  match pat with
  | [] => fun s => match s with EmptyString => true | String _ _ => false end
  | Lit c :: pat' => fun s =>
      match s with
      | EmptyString => false
      | String d s' =>
          Ascii.eqb (sqlite3Tolower c) (sqlite3Tolower d) && like_match pat' s'
      end
  | Percent :: pat' =>
      fix skip (s : string) : bool :=
        like_match pat' s ||
        match s with
        | EmptyString => false
        | String _ s' => skip s'
        end
  end.

(** [X LIKE pat]: NULL when X is NULL. *)
Definition sql_like (x : sqlval) (pat : string) : option bool :=
  match x with
  | None => None
  | Some s => Some (like_match (like_toks pat) s)
  end.

Fixpoint drop_chars (n : nat) (s : string) : string :=
  match n, s with
  | O, _ => s
  | S _, EmptyString => EmptyString
  | S n', String _ s' => drop_chars n' s'
  end.

(** SQLite's string functions read a text up to its first NUL byte. *)
Definition is_nul (c : ascii) : bool := Ascii.eqb c "000".

Fixpoint until_nul (s : string) : string :=
  match s with
  | EmptyString => EmptyString
  | String c s' => if is_nul c then EmptyString else String c (until_nul s')
  end.

(** [SQLITE_SKIP_UTF8]: one step over a character; a byte of 0xC0 or more
    takes the continuation bytes (0x80 to 0xBF) behind it along. *)
Definition is_continuation (c : ascii) : bool :=
  let n := N_of_ascii c in ((128 <=? n) && (n <? 192))%N.

Fixpoint skip_continuation (s : string) : string :=
  match s with
  | EmptyString => EmptyString
  | String c s' => if is_continuation c then skip_continuation s' else s
  end.

Definition skip_utf8 (s : string) : string :=
  match s with
  | EmptyString => EmptyString
  | String c s' => if (192 <=? N_of_ascii c)%N then skip_continuation s' else s'
  end.

(** [while( *z && p1 ){ SQLITE_SKIP_UTF8(z); p1--; }] *)
Fixpoint skip_chars (n : nat) (s : string) : string :=
  match n with
  | O => s
  | S n' =>
      match s with
      | EmptyString => EmptyString
      | String c _ => if is_nul c then s else skip_chars n' (skip_utf8 s)
      end
  end.

(** [substr(X, start)] for a start of at least 1: the characters from the
    [start]-th on, up to the first NUL byte. *)
Definition sql_substr (x : sqlval) (start : nat) : sqlval :=
  match x with
  | None => None
  | Some s => Some (until_nul (skip_chars (start - 1) s))
  end.

(** [CASE WHEN X LIKE 'the %' THEN substr(X,5) ELSE X END], the ORDER BY
    expression of the four sorted queries. *)
Definition sort_key (x : sqlval) : sqlval :=
  match sql_like x "the %" with
  | Some true => sql_substr x 5
  | _ => x
  end.

(** Ascending order of the BINARY collation: NULL first, then text compared
    byte by byte, a proper prefix before its extensions. *)
Definition sql_le (a b : sqlval) : bool :=
  match a, b with
  | None, _ => true
  | Some _, None => false
  | Some x, Some y => String.leb x y
  end.

(** ORDER BY, as a stable insertion sort: rows with equal keys keep the
    order of the scan (SQL itself leaves the order of ties open). *)
Section OrderBy.
Context {A : Type} (key : A -> sqlval).

Fixpoint insert_row (x : A) (sorted : list A) : list A :=
  match sorted with
  | [] => [x]
  | y :: rest =>
      if sql_le (key x) (key y) then x :: y :: rest
      else y :: insert_row x rest
  end.

Fixpoint order_by (rows : list A) : list A :=
  match rows with
  | [] => []
  | x :: rest => insert_row x (order_by rest)
  end.

Definition key_le (a b : A) : Prop := sql_le (key a) (key b) = true.
End OrderBy.

(** ** Tables *)

(** Content(Directory TEXT PRIMARY KEY, Title, Mediatype, Status, Show_Title):
    every column may hold NULL. *)
Record content_row : Type := ContentRow {
  Directory : sqlval;
  Title : sqlval;
  Mediatype : sqlval;
  Status : sqlval;
  Show_Title : sqlval
}.

(** Synced(Directory TEXT PRIMARY KEY, Label TEXT, Type TEXT). *)
Record synced_row : Type := SyncedRow {
  Synced_Directory : sqlval;
  Label : sqlval;
  Synced_Type : sqlval
}.

(** Blocked(Value TEXT NOT NULL, Type TEXT NOT NULL). *)
Record blocked_row : Type := BlockedRow {
  Value : string;
  Blocked_Type : string
}.

(** The database behind [self.db], rows in rowid order. *)
Record DB : Type := MkDB {
  Content : list content_row;
  Synced : list synced_row;
  Blocked : list blocked_row
}.

(** The state [__init__] creates on a new file: three empty tables. *)
Definition init : DB := MkDB [] [] [].

(** [cursor.fetchone()]: the first row of the result, or [None]. *)
Definition fetchone {A} (rows : list A) : option A := head rows.

(** [bool(res)] of a fetched row: a row tuple is never empty. *)
Definition py_bool {A} (res : option A) : bool :=
  match res with
  | Some _ => true
  | None => false
  end.

(** ** External collaborators *)

(** Modelled from the spec: the classes [contentitem.MovieItem] and
    [contentitem.EpisodeItem] are not part of the module; an entry is the
    tuple of constructor arguments it was built from (a movie entry is
    path, title, kind; an episode entry adds the show title). *)
Inductive ContentItem : Type :=
  | MovieItem (path title : sqlval) (mediatype : string)
  | EpisodeItem (path title : sqlval) (mediatype : string) (show_title : sqlval).

(** Modelled from the spec: [utils.utf8_decorator] normalises text arguments
    and results to UTF-8; on the byte strings of this model it changes
    nothing. *)
Definition utf8_decorator {F : Type} (f : F) : F := f.

(** Modelled from the spec: [utils.log_decorator] logs the call and returns
    what the wrapped method returns. *)
Definition log_decorator {F : Type} (f : F) : F := f.

Definition item_path (i : ContentItem) : sqlval :=
  match i with
  | MovieItem p _ _ => p
  | EpisodeItem p _ _ _ => p
  end.

Definition item_title (i : ContentItem) : sqlval :=
  match i with
  | MovieItem _ t _ => t
  | EpisodeItem _ t _ _ => t
  end.

(** ** Row mapping *)

(** [content_item_from_db(item)]; [item] is a row or, from [fetchone], None,
    and [item[2]] on None is a TypeError. *)
Definition content_item_from_db (item : option content_row) : result ContentItem :=
  match item with
  | None => Raise TypeError
  | Some r =>
      if py_eq (Mediatype r) "movie" then
        OK (MovieItem (Directory r) (Title r) "movie")
      else if py_eq (Mediatype r) "tvshow" then
        OK (EpisodeItem (Directory r) (Title r) "tvshow" (Show_Title r))
      else Raise ValueError
  end.

Definition synced_item_dict (item : synced_row) : gmap string sqlval :=
  {[ "dir" := Synced_Directory item;
     "label" := Label item;
     "type" := Synced_Type item ]}.

(** ** Queries on Content *)

(** The rows the SELECT of [get_content_items] leaves in the cursor. *)
Definition get_content_items_rows (db : DB) (status mediatype : sqlval)
  : list content_row :=
  if truthy mediatype then
    order_by (fun r => sort_key (Title r))
      (List.filter (fun r => sql_eq (Status r) status
                             && sql_eq (Mediatype r) mediatype) (Content db))
  else
    order_by (fun r => sort_key (Title r))
      (List.filter (fun r => sql_eq (Status r) status) (Content db)).

Definition get_content_items (db : DB) (status mediatype : sqlval)
  : result (list ContentItem) :=
  log_decorator
    (let rows := get_content_items_rows db status mediatype in
     comprehension (fun x => content_item_from_db (Some x)) rows).

(** [DISTINCT]: a value is kept where the scan meets it first. *)
Fixpoint distinct (rows : list sqlval) : list sqlval :=
  match rows with
  | [] => []
  | x :: rest =>
      x :: List.filter (fun y => negb (bool_decide (y = x))) (distinct rest)
  end.

(** [SELECT DISTINCT Show_Title ... ORDER BY ...]: one-column rows. *)
Definition get_all_shows_rows (db : DB) (status : sqlval) : list sqlval :=
  order_by sort_key
    (distinct
       (map Show_Title
          (List.filter (fun r => sql_eq (Status r) status) (Content db)))).

(** [[x[0] for x in rows if x[0] is not None]] *)
Definition get_all_shows (db : DB) (status : sqlval) : list string :=
  log_decorator (omap id (get_all_shows_rows db status)).

Definition get_show_episodes_rows (db : DB) (status show_title : sqlval)
  : list content_row :=
  order_by (fun r => sort_key (Title r))
    (List.filter (fun r => sql_eq (Status r) status
                           && sql_eq (Show_Title r) show_title) (Content db)).

Definition get_show_episodes (db : DB) (status show_title : sqlval)
  : result (list ContentItem) :=
  log_decorator
    (let rows := get_show_episodes_rows db status show_title in
     comprehension (fun x => content_item_from_db (Some x)) rows).

(** The row [fetchone] hands to [load_item]. *)
Definition load_item_row (db : DB) (path : sqlval) : option content_row :=
  fetchone (List.filter (fun r => sql_eq (Directory r) path) (Content db)).

Definition load_item (db : DB) (path : sqlval) : result ContentItem :=
  utf8_decorator (log_decorator
    (let item := load_item_row db path in
     content_item_from_db item)).

Definition path_exists (db : DB) (path status : sqlval) : bool :=
  utf8_decorator (log_decorator
    (let res :=
       if truthy status then
         fetchone (map Directory
           (List.filter (fun r => sql_eq (Directory r) path
                                  && sql_eq (Status r) status) (Content db)))
       else
         fetchone (map Directory
           (List.filter (fun r => sql_eq (Directory r) path) (Content db)))
     in py_bool res)).

(** ** Mutations of Content *)

Definition with_Content (db : DB) (t : list content_row) : DB :=
  MkDB t (Synced db) (Blocked db).
Definition with_Synced (db : DB) (t : list synced_row) : DB :=
  MkDB (Content db) t (Blocked db).
Definition with_Blocked (db : DB) (t : list blocked_row) : DB :=
  MkDB (Content db) (Synced db) t.

(** [INSERT OR IGNORE INTO Content]: a row whose Directory is already there
    is skipped; a NULL Directory never conflicts. *)
Definition insert_or_ignore (r : content_row) (t : list content_row)
  : list content_row :=
  if existsb (fun x => sql_eq (Directory x) (Directory r)) t then t
  else t ++ [r].

Definition add_content_item (db : DB) (path title mediatype show_title : sqlval)
  : result DB :=
  utf8_decorator (log_decorator
    (if py_eq mediatype "movie" then
       OK (with_Content db
             (insert_or_ignore
                (ContentRow path title mediatype (Some "staged") None)
                (Content db)))
     else if py_eq mediatype "tvshow" then
       OK (with_Content db
             (insert_or_ignore
                (ContentRow path title mediatype (Some "staged") show_title)
                (Content db)))
     else OK db)).

Definition set_Status (status : sqlval) (r : content_row) : content_row :=
  ContentRow (Directory r) (Title r) (Mediatype r) status (Show_Title r).
Definition set_Title (title : sqlval) (r : content_row) : content_row :=
  ContentRow (Directory r) title (Mediatype r) (Status r) (Show_Title r).

(** [UPDATE Content SET ... WHERE Directory=?] *)
Definition update_where (path : sqlval) (f : content_row -> content_row)
    (t : list content_row) : list content_row :=
  map (fun r => if sql_eq (Directory r) path then f r else r) t.

(** [cursor.rowcount] after the UPDATE. *)
Definition update_rowcount (path : sqlval) (t : list content_row) : nat :=
  length (List.filter (fun r => sql_eq (Directory r) path) t).

Definition update_content_status (db : DB) (path status : sqlval) : result DB :=
  utf8_decorator (log_decorator
    (OK (with_Content db (update_where path (set_Status status) (Content db))))).

Definition update_content_title (db : DB) (path title : sqlval) : result DB :=
  utf8_decorator (log_decorator
    (OK (with_Content db (update_where path (set_Title title) (Content db))))).

(** [DELETE FROM t WHERE cond] *)
Definition delete_where {A} (cond : A -> bool) (t : list A) : list A :=
  List.filter (fun r => negb (cond r)) t.

Definition remove_content_item (db : DB) (path : sqlval) : result DB :=
  utf8_decorator (log_decorator
    (OK (with_Content db
           (delete_where (fun r => sql_eq (Directory r) path) (Content db))))).

Definition remove_all_content_items (db : DB) (status mediatype : sqlval)
  : result DB :=
  log_decorator
    (OK (with_Content db
           (delete_where (fun r => sql_eq (Status r) status
                                   && sql_eq (Mediatype r) mediatype)
              (Content db)))).

Definition remove_all_show_episodes (db : DB) (status show_title : sqlval)
  : result DB :=
  utf8_decorator (log_decorator
    (OK (with_Content db
           (delete_where (fun r => sql_eq (Status r) status
                                   && sql_eq (Show_Title r) show_title)
              (Content db))))).

(** ** Synced *)

Definition get_synced_dirs_rows (db : DB) : list synced_row :=
  order_by (fun r => sort_key (Label r)) (Synced db).

Definition get_synced_dirs (db : DB) : list (gmap string sqlval) :=
  utf8_decorator (log_decorator
    (let rows := get_synced_dirs_rows db in
     map synced_item_dict rows)).

(** [INSERT OR REPLACE]: the row in conflict on Directory is deleted, the
    new one is appended. *)
Definition add_synced_dir (db : DB) (label path mediatype : sqlval) : result DB :=
  utf8_decorator (log_decorator
    (OK (with_Synced db
           (delete_where (fun r => sql_eq (Synced_Directory r) path) (Synced db)
              ++ [SyncedRow path label mediatype])))).

Definition remove_synced_dir (db : DB) (path : sqlval) : result DB :=
  utf8_decorator (log_decorator
    (OK (with_Synced db
           (delete_where (fun r => sql_eq (Synced_Directory r) path)
              (Synced db))))).

Definition remove_all_synced_dirs (db : DB) : result DB :=
  log_decorator (OK (with_Synced db [])).

(** ** Blocked *)

Definition blocked_matches (value mediatype : sqlval) (r : blocked_row) : bool :=
  sql_eq (Some (Value r)) value && sql_eq (Some (Blocked_Type r)) mediatype.

Definition check_blocked (db : DB) (value mediatype : sqlval) : bool :=
  utf8_decorator (log_decorator
    (let res :=
       fetchone (map Value
         (List.filter (blocked_matches value mediatype) (Blocked db)))
     in py_bool res)).

(** [INSERT INTO Blocked (Value, Type) VALUES (?, ?)]: both columns are
    NOT NULL, so binding [None] fails the statement. *)
Definition insert_blocked (value mediatype : sqlval) (t : list blocked_row)
  : result (list blocked_row) :=
  match value, mediatype with
  | Some v, Some k => OK (t ++ [BlockedRow v k])%list
  | _, _ => Raise IntegrityError
  end.

Definition add_blocked_item (db : DB) (value mediatype : sqlval) : result DB :=
  utf8_decorator (log_decorator
    (if negb (check_blocked db value mediatype) then
       t ← insert_blocked value mediatype (Blocked db);
       OK (with_Blocked db t)
     else OK db)).

Definition remove_blocked (db : DB) (value mediatype : sqlval) : result DB :=
  utf8_decorator (log_decorator
    (OK (with_Blocked db
           (delete_where (blocked_matches value mediatype) (Blocked db))))).

(** ** Calls that change the database *)

Inductive call : Type :=
  | Add_content_item (path title mediatype show_title : sqlval)
  | Update_content_status (path status : sqlval)
  | Update_content_title (path title : sqlval)
  | Remove_content_item (path : sqlval)
  | Remove_all_content_items (status mediatype : sqlval)
  | Remove_all_show_episodes (status show_title : sqlval)
  | Add_synced_dir (label path mediatype : sqlval)
  | Remove_synced_dir (path : sqlval)
  | Remove_all_synced_dirs
  | Add_blocked_item (value mediatype : sqlval)
  | Remove_blocked (value mediatype : sqlval).

Definition run (db : DB) (c : call) : result DB :=
  match c with
  | Add_content_item p t m s => add_content_item db p t m s
  | Update_content_status p s => update_content_status db p s
  | Update_content_title p t => update_content_title db p t
  | Remove_content_item p => remove_content_item db p
  | Remove_all_content_items s m => remove_all_content_items db s m
  | Remove_all_show_episodes s t => remove_all_show_episodes db s t
  | Add_synced_dir l p m => add_synced_dir db l p m
  | Remove_synced_dir p => remove_synced_dir db p
  | Remove_all_synced_dirs => remove_all_synced_dirs db
  | Add_blocked_item v m => add_blocked_item db v m
  | Remove_blocked v m => remove_blocked db v m
  end.

(** A sequence of calls; a call that raises leaves the database as the
    calls before it committed it and ends the sequence. *)
Fixpoint run_all (db : DB) (cs : list call) : result DB :=
  match cs with
  | [] => OK db
  | c :: rest => db' ← run db c; run_all db' rest
  end.

(** ** Vocabulary of the statements *)

Definition one_of (c a b : ascii) : bool := Ascii.eqb c a || Ascii.eqb c b.

(** [s] starts with the four characters t, h, e, space, the letters in
    either case. *)
Definition article_prefix (s : string) : bool :=
  match s with
  | String c1 (String c2 (String c3 (String c4 _))) =>
      one_of c1 "t" "T" && one_of c2 "h" "H" && one_of c3 "e" "E"
      && Ascii.eqb c4 " "
  | _ => false
  end.

(** The sort key in the words of the specification: the text after the
    exact prefix "The ", else the string itself. *)
Definition spec_sort_key (s : string) : string :=
  if String.prefix "The " s then String.substring 4 (String.length s - 4) s
  else s.

(** The ORDER BY key of an entry returned by [get_synced_dirs]. *)
Definition dict_label (d : gmap string sqlval) : sqlval :=
  default None (d !! "label").

Definition staged_movie (path title : string) : content_row :=
  ContentRow (Some path) (Some title) (Some "movie") (Some "staged") None.

Definition office_archer_wire : DB :=
  MkDB [staged_movie "/1" "The Office"; staged_movie "/2" "Archer";
        staged_movie "/3" "The Wire"] [] [].

Definition episode (path title status show : string) : content_row :=
  ContentRow (Some path) (Some title) (Some "tvshow") (Some status) (Some show).

Definition lowercase_article : DB :=
  MkDB [episode "/1" "e1" "staged" "the wire";
        episode "/2" "e1" "staged" "uma"] [] [].

(** A byte that is one character on its own and not the end of the text. *)
Definition single_byte (c : ascii) : bool :=
  negb (is_nul c) && negb (192 <=? N_of_ascii c)%N.

(** The text "The b", a NUL byte, "z". *)
Definition title_with_nul : string :=
  String "T" (String "h" (String "e" (String " " (String "b"
    (String "000" (String "z" EmptyString)))))).

(** The state after add_blocked_item('Trailer', 'tvshow') on empty tables. *)
Definition trailer_blocked_for_tvshow : DB :=
  MkDB [] [] [BlockedRow "Trailer" "tvshow"].

(** A kind the row mapping knows. *)
Definition known_kind (m : sqlval) : bool := py_eq m "movie" || py_eq m "tvshow".

(** No Content row has directory [p]. *)
Definition absent (p : string) (t : list content_row) : Prop :=
  forall r, r ∈ t -> Directory r <> Some p.

(** The rows the store itself writes: a movie without show title, or a
    tvshow row. *)
Definition store_row (r : content_row) : Prop :=
  (Mediatype r = Some "movie" /\ Show_Title r = None)
  \/ Mediatype r = Some "tvshow".

Definition store_built (db : DB) : Prop := Forall store_row (Content db).

(** How many Blocked rows hold the pair (value, kind). *)
Definition blocked_count (v k : string) (t : list blocked_row) : nat :=
  length (List.filter (blocked_matches (Some v) (Some k)) t).

Definition one_staged_movie : DB :=
  MkDB [staged_movie "/a" "Alien"] [] [].

(** A Content table written by something other than this store: a movie
    row that carries a show title. *)
Definition movie_with_show_title : DB :=
  MkDB [ContentRow (Some "/m") (Some "Pilot") (Some "movie") (Some "staged")
          (Some "Some Show")] [] [].

(** ** The listing of Blocked *)

Definition blocked_item_dict (item : blocked_row) : gmap string string :=
  {[ "value" := Value item; "type" := Blocked_Type item ]}.

(** [ORDER BY Value, Type]: rows are compared on Value, and on Type where
    the Values are equal, both in the BINARY collation. *)
Definition blocked_le (a b : blocked_row) : bool :=
  match String.compare (Value a) (Value b) with
  | Lt => true
  | Eq => String.leb (Blocked_Type a) (Blocked_Type b)
  | Gt => false
  end.

Fixpoint insert_by_value_type (x : blocked_row) (sorted : list blocked_row)
  : list blocked_row :=
  match sorted with
  | [] => [x]
  | y :: rest =>
      if blocked_le x y then x :: y :: rest
      else y :: insert_by_value_type x rest
  end.

Fixpoint order_by_value_type (rows : list blocked_row) : list blocked_row :=
  match rows with
  | [] => []
  | x :: rest => insert_by_value_type x (order_by_value_type rest)
  end.

Definition get_blocked_items_rows (db : DB) : list blocked_row :=
  order_by_value_type (Blocked db).

Definition get_blocked_items (db : DB) : list (gmap string string) :=
  log_decorator
    (let rows := get_blocked_items_rows db in
     map blocked_item_dict rows).

(** ** Further vocabulary *)

(** The table a call's statement names. *)
Inductive table : Type := Content_table | Synced_table | Blocked_table.

Definition table_of (c : call) : table :=
  match c with
  | Add_content_item _ _ _ _ | Update_content_status _ _
  | Update_content_title _ _ | Remove_content_item _
  | Remove_all_content_items _ _ | Remove_all_show_episodes _ _ => Content_table
  | Add_synced_dir _ _ _ | Remove_synced_dir _ | Remove_all_synced_dirs =>
      Synced_table
  | Add_blocked_item _ _ | Remove_blocked _ _ => Blocked_table
  end.

(** PRIMARY KEY on a TEXT column: no two rows share a non-NULL key. *)
Definition unique_keys {A} (key : A -> sqlval) (t : list A) : Prop :=
  NoDup (omap key t).

Definition primary_keys (db : DB) : Prop :=
  unique_keys Directory (Content db) /\ unique_keys Synced_Directory (Synced db).

(** An entry with another title. *)
Definition retitle (title : sqlval) (i : ContentItem) : ContentItem :=
  match i with
  | MovieItem p _ m => MovieItem p title m
  | EpisodeItem p _ m s => EpisodeItem p title m s
  end.

Definition is_movie_item (i : ContentItem) : Prop :=
  exists p t, i = MovieItem p t "movie".

Definition is_episode_of (show_title : sqlval) (i : ContentItem) : Prop :=
  exists p t, i = EpisodeItem p t "tvshow" show_title.

Definition two_shows : DB :=
  MkDB [episode "/w1" "Pilot" "staged" "The Wire";
        staged_movie "/a" "Alien";
        episode "/o1" "Pilot" "staged" "The Office";
        episode "/w2" "Second" "synced" "The Wire"]
       [SyncedRow (Some "/tv") (Some "Shows") (Some "tvshow")]
       [BlockedRow "Trailer" "movie"].

(** * Properties *)

(** ** Sequencing and comprehensions *)

Lemma comprehension_OK_Forall2 {A B} (f : A -> result B) rows ys :
  comprehension f rows = OK ys <-> Forall2 (fun x y => f x = OK y) rows ys.
Proof.
  revert ys. induction rows as [|x rows IH]; intros ys; simpl.
  - split.
    + intros [= <-]. constructor.
    + intros H. inversion H. reflexivity.
  - split.
    + destruct (f x) as [y|e] eqn:Hx; simpl; [|discriminate].
      destruct (comprehension f rows) as [ys'|e] eqn:Hrows; simpl; [|discriminate].
      intros [= <-]. constructor; [assumption|]. apply IH. reflexivity.
    + intros H. inversion H as [|? y ? ys' Hx Hrest]; subst.
      rewrite Hx. simpl. apply IH in Hrest. rewrite Hrest. reflexivity.
Qed.

Lemma comprehension_raises {A B} (f : A -> result B) rows :
  raises (comprehension f rows) = existsb (fun x => raises (f x)) rows.
Proof.
  induction rows as [|x rows IH]; simpl; [reflexivity|].
  destruct (f x) as [y|e]; simpl; [|reflexivity].
  rewrite <- IH. destruct (comprehension f rows); reflexivity.
Qed.

(** ** ORDER BY *)

Lemma sql_le_total a b : sql_le a b = true \/ sql_le b a = true.
Proof.
  destruct a as [x|], b as [y|]; simpl; auto.
  apply String.leb_total.
Qed.

Lemma string_leb_trans a b c :
  String.leb a b = true -> String.leb b c = true -> String.leb a c = true.
Proof.
  unfold String.leb. revert b c.
  induction a as [|x a IH]; intros [|y b] [|z c]; simpl;
    try reflexivity; try discriminate.
  unfold Ascii.compare.
  destruct (N.compare_spec (N_of_ascii x) (N_of_ascii y)) as [Hxy|Hxy|Hxy],
           (N.compare_spec (N_of_ascii y) (N_of_ascii z)) as [Hyz|Hyz|Hyz],
           (N.compare_spec (N_of_ascii x) (N_of_ascii z)) as [Hxz|Hxz|Hxz];
    try reflexivity; try discriminate; try lia.
  apply IH.
Qed.

Lemma sql_le_trans a b c :
  sql_le a b = true -> sql_le b c = true -> sql_le a c = true.
Proof.
  destruct a as [x|], b as [y|], c as [z|]; simpl;
    try reflexivity; try discriminate.
  apply string_leb_trans.
Qed.

Section OrderByFacts.
Context {A : Type} (key : A -> sqlval).

Lemma insert_row_Permutation x l : Permutation (x :: l) (insert_row key x l).
Proof.
  induction l as [|y l IH]; simpl; [reflexivity|].
  destruct (sql_le (key x) (key y)); [reflexivity|].
  rewrite perm_swap. constructor. exact IH.
Qed.

Lemma order_by_Permutation l : Permutation l (order_by key l).
Proof.
  induction l as [|x l IH]; simpl; [constructor|].
  rewrite <- insert_row_Permutation. constructor. exact IH.
Qed.

Lemma insert_row_HdRel y x l :
  key_le key y x -> HdRel (key_le key) y l ->
  HdRel (key_le key) y (insert_row key x l).
Proof.
  intros Hyx Hyl. destruct l as [|z l]; simpl.
  - constructor. exact Hyx.
  - destruct (sql_le (key x) (key z)); constructor.
    + exact Hyx.
    + inversion Hyl; assumption.
Qed.

Lemma insert_row_Sorted x l :
  Sorted (key_le key) l -> Sorted (key_le key) (insert_row key x l).
Proof.
  induction 1 as [|y l Hl IH Hy]; simpl.
  - repeat constructor.
  - destruct (sql_le (key x) (key y)) eqn:Hxy.
    + constructor; [constructor; assumption|]. constructor. exact Hxy.
    + constructor; [exact IH|]. apply insert_row_HdRel; [|exact Hy].
      destruct (sql_le_total (key x) (key y)) as [H|H]; [congruence|exact H].
Qed.

Lemma order_by_Sorted l : Sorted (key_le key) (order_by key l).
Proof.
  induction l as [|x l IH]; simpl; [constructor|].
  apply insert_row_Sorted, IH.
Qed.

Lemma order_by_elem_of x l : x ∈ order_by key l <-> x ∈ l.
Proof. rewrite <- (order_by_Permutation l). reflexivity. Qed.

#[local] Instance key_le_trans : Transitive (key_le key).
Proof. intros a b c. apply sql_le_trans. Qed.

(** Adjacent rows in order means every row is before all later ones. *)
Lemma ascending l : Sorted (key_le key) l -> StronglySorted (key_le key) l.
Proof. apply Sorted_StronglySorted, key_le_trans. Qed.

(** Sortedness only looks at the keys. *)
Lemma Sorted_keys l :
  Sorted (key_le key) l <-> Sorted (key_le id) (map key l).
Proof.
  induction l as [|x l IH]; simpl.
  - split; constructor.
  - split; intros H; inversion H as [|? ? Hl Hx]; subst;
      (constructor; [apply IH, Hl|]);
      destruct l; simpl in *; constructor; inversion Hx; assumption.
Qed.
End OrderByFacts.

Lemma Sorted_same_keys {A B} (ka : A -> sqlval) (kb : B -> sqlval) la lb :
  map kb lb = map ka la ->
  Sorted (key_le ka) la -> Sorted (key_le kb) lb.
Proof.
  intros Heq H. apply (proj2 (Sorted_keys kb lb)). rewrite Heq.
  exact (proj1 (Sorted_keys ka la) H).
Qed.

Lemma elem_of_filterb {A} (f : A -> bool) (x : A) (l : list A) :
  x ∈ List.filter f l <-> x ∈ l /\ f x = true.
Proof. rewrite !list_elem_of_In. apply filter_In. Qed.

(** ** The ORDER BY key *)

Lemma fold_t c : Ascii.eqb (sqlite3Tolower "t") (sqlite3Tolower c) = one_of c "t" "T".
Proof. destruct c as [[] [] [] [] [] [] [] []]; reflexivity. Qed.

Lemma fold_h c : Ascii.eqb (sqlite3Tolower "h") (sqlite3Tolower c) = one_of c "h" "H".
Proof. destruct c as [[] [] [] [] [] [] [] []]; reflexivity. Qed.

Lemma fold_e c : Ascii.eqb (sqlite3Tolower "e") (sqlite3Tolower c) = one_of c "e" "E".
Proof. destruct c as [[] [] [] [] [] [] [] []]; reflexivity. Qed.

Lemma fold_space c : Ascii.eqb (sqlite3Tolower " ") (sqlite3Tolower c) = Ascii.eqb c " ".
Proof. destruct c as [[] [] [] [] [] [] [] []]; reflexivity. Qed.

(** A trailing [%] accepts whatever is left. *)
Lemma like_match_Percent s : like_match [Percent] s = true.
Proof. induction s as [|c s IH]; simpl; [reflexivity|exact IH]. Qed.

Lemma like_match_Lit_nil c pat : like_match (Lit c :: pat) "" = false.
Proof. reflexivity. Qed.

Lemma like_match_Lit_cons c pat d s :
  like_match (Lit c :: pat) (String d s)
  = Ascii.eqb (sqlite3Tolower c) (sqlite3Tolower d) && like_match pat s.
Proof. reflexivity. Qed.

Lemma like_the s : like_match (like_toks "the %") s = article_prefix s.
Proof.
  change (like_toks "the %") with [Lit "t"; Lit "h"; Lit "e"; Lit " "; Percent]%char.
  destruct s as [|c1 [|c2 [|c3 [|c4 s]]]]; unfold article_prefix;
    rewrite ?like_match_Lit_cons, ?like_match_Lit_nil, ?like_match_Percent,
      ?fold_t, ?fold_h, ?fold_e, ?fold_space,
      ?andb_false_r, ?andb_true_r, ?andb_assoc;
    reflexivity.
Qed.

Lemma one_of_single_byte c a b :
  single_byte a = true -> single_byte b = true ->
  one_of c a b = true -> single_byte c = true.
Proof.
  intros Ha Hb H. apply orb_true_iff in H as [H|H];
    apply Ascii.eqb_eq in H; subst c; assumption.
Qed.

Lemma skip_chars_single_byte n c s :
  single_byte c = true -> skip_chars (S n) (String c s) = skip_chars n s.
Proof.
  unfold single_byte. intros H. apply andb_true_iff in H as [Hn Hc].
  apply negb_true_iff in Hn, Hc. simpl. rewrite Hn, Hc. reflexivity.
Qed.

(** Behind the article the characters skipped are four single bytes. *)
Lemma skip_chars_article s :
  article_prefix s = true -> skip_chars 4 s = drop_chars 4 s.
Proof.
  destruct s as [|c1 [|c2 [|c3 [|c4 s]]]]; try discriminate.
  unfold article_prefix. rewrite !andb_true_iff. intros [[[H1 H2] H3] H4].
  apply Ascii.eqb_eq in H4. subst c4.
  rewrite !skip_chars_single_byte;
    try reflexivity; eapply one_of_single_byte; try eassumption; reflexivity.
Qed.

Lemma sort_key_text s :
  sort_key (Some s)
  = Some (if article_prefix s then until_nul (drop_chars 4 s) else s).
Proof.
  unfold sort_key, sql_like, sql_substr. rewrite like_the.
  destruct (article_prefix s) eqn:E; [|reflexivity].
  change (5 - 1) with 4. rewrite skip_chars_article by exact E. reflexivity.
Qed.

Lemma elem_of_distinct x l : x ∈ distinct l <-> x ∈ l.
Proof.
  induction l as [|y l IH]; simpl; [reflexivity|].
  rewrite !elem_of_cons, elem_of_filterb, IH, negb_true_iff, bool_decide_eq_false.
  destruct (decide (x = y)); tauto.
Qed.

Lemma NoDup_filterb {A} (f : A -> bool) (l : list A) :
  NoDup l -> NoDup (List.filter f l).
Proof.
  induction 1 as [|x l Hx Hnd IH]; simpl; [constructor|].
  destruct (f x); [|exact IH].
  constructor; [|exact IH]. rewrite elem_of_filterb. tauto.
Qed.

Lemma NoDup_distinct l : NoDup (distinct l).
Proof.
  induction l as [|x l IH]; simpl; constructor.
  - rewrite elem_of_filterb, negb_true_iff, bool_decide_eq_false. tauto.
  - apply NoDup_filterb, IH.
Qed.

Lemma sort_key_Some_inv x s : sort_key x = Some s -> exists t, x = Some t.
Proof. destruct x as [t|]; [eauto|discriminate]. Qed.

(** NULL keys come first, so dropping them keeps the list sorted. *)
Lemma Sorted_omap (l : list sqlval) :
  Sorted (key_le sort_key) l ->
  Sorted (key_le (fun t => sort_key (Some t))) (omap id l).
Proof.
  induction 1 as [|x l Hl IH Hx]; simpl; [constructor|].
  destruct x as [s|]; simpl; [|exact IH].
  constructor; [exact IH|].
  destruct Hx as [|y l Hxy]; simpl; [constructor|].
  destruct y as [t|]; simpl.
  - constructor. exact Hxy.
  - unfold key_le in Hxy. rewrite sort_key_text in Hxy. discriminate.
Qed.

Lemma dict_label_synced r : dict_label (synced_item_dict r) = Label r.
Proof.
  unfold dict_label, synced_item_dict.
  rewrite lookup_insert_ne by discriminate.
  rewrite lookup_insert_eq. reflexivity.
Qed.

(** ** Row mapping *)

Lemma content_item_title r i :
  content_item_from_db (Some r) = OK i ->
  item_title i = Title r /\ item_path i = Directory r.
Proof.
  simpl. destruct (py_eq (Mediatype r) "movie");
    [|destruct (py_eq (Mediatype r) "tvshow")]; intros [= <-]; auto.
Qed.

Lemma mapped_rows rows items :
  comprehension (fun x => content_item_from_db (Some x)) rows = OK items ->
  map item_title items = map Title rows
  /\ forall i, i ∈ items -> exists r, r ∈ rows /\ item_title i = Title r
                                     /\ item_path i = Directory r.
Proof.
  rewrite comprehension_OK_Forall2. induction 1 as [|r i rows items Hri _ [IH1 IH2]].
  - split; [reflexivity|]. intros i Hi. inversion Hi.
  - apply content_item_title in Hri as [Ht Hp]. split.
    + simpl. rewrite Ht, IH1. reflexivity.
    + intros j Hj. apply elem_of_cons in Hj as [->|Hj].
      * exists r. split; [left|auto].
      * destruct (IH2 j Hj) as (r' & Hr' & H). exists r'. split; [right; exact Hr'|exact H].
Qed.

Lemma get_content_items_rows_elem db status mediatype r :
  r ∈ get_content_items_rows db status mediatype ->
  r ∈ Content db /\ sql_eq (Status r) status = true.
Proof.
  unfold get_content_items_rows. destruct (truthy mediatype);
    rewrite order_by_elem_of, elem_of_filterb.
  - intros [Hr H]. apply andb_true_iff in H. tauto.
  - tauto.
Qed.

Lemma get_content_items_rows_Sorted db status mediatype :
  Sorted (key_le (fun r => sort_key (Title r)))
    (get_content_items_rows db status mediatype).
Proof.
  unfold get_content_items_rows. destruct (truthy mediatype); apply order_by_Sorted.
Qed.

Lemma mapped_rows_Sorted rows items :
  comprehension (fun x => content_item_from_db (Some x)) rows = OK items ->
  Sorted (key_le (fun r => sort_key (Title r))) rows ->
  Sorted (key_le (fun i => sort_key (item_title i))) items.
Proof.
  intros H. apply mapped_rows in H as [H _].
  apply Sorted_same_keys.
  rewrite <- (map_map item_title sort_key), H, map_map. reflexivity.
Qed.

Lemma get_show_episodes_rows_elem db status show_title r :
  r ∈ get_show_episodes_rows db status show_title ->
  r ∈ Content db /\ sql_eq (Status r) status = true
  /\ sql_eq (Show_Title r) show_title = true.
Proof.
  unfold get_show_episodes_rows. rewrite order_by_elem_of, elem_of_filterb.
  intros [Hr H]. apply andb_true_iff in H. tauto.
Qed.

(** ** The sort rule *)

(** C1, as the code has it. The ORDER BY key of a string is what follows its
    first four characters, up to the first NUL byte if there is one, when it
    starts with t, h, e, space, the letters in either case (LIKE does not
    distinguish the case of ASCII letters), and the string itself otherwise;
    a NULL has a NULL key. Every listing operation returns its entries in
    ascending order of that key, and each entry carries the stored title
    unchanged. The titles The Office, Archer, The Wire come back as Archer,
    The Office, The Wire. *)
Theorem sort_rule (db : DB) (status mediatype show_title : sqlval) :
  (forall s,
      sort_key (Some s)
      = Some (if article_prefix s then until_nul (drop_chars 4 s) else s))
  /\ sort_key (Some title_with_nul) = Some "b"
  /\ sort_key None = None
  /\ (forall items,
        get_content_items db status mediatype = OK items ->
        StronglySorted (key_le (fun i => sort_key (item_title i))) items
        /\ forall i, i ∈ items ->
             exists r, r ∈ Content db /\ item_title i = Title r)
  /\ (forall items,
        get_show_episodes db status show_title = OK items ->
        StronglySorted (key_le (fun i => sort_key (item_title i))) items
        /\ forall i, i ∈ items ->
             exists r, r ∈ Content db /\ item_title i = Title r)
  /\ StronglySorted (key_le (fun t => sort_key (Some t))) (get_all_shows db status)
  /\ (forall t, t ∈ get_all_shows db status ->
        exists r, r ∈ Content db /\ Show_Title r = Some t)
  /\ StronglySorted (key_le (fun d => sort_key (dict_label d)))
       (get_synced_dirs db)
  /\ get_content_items office_archer_wire (Some "staged") None
     = OK [MovieItem (Some "/2") (Some "Archer") "movie";
           MovieItem (Some "/1") (Some "The Office") "movie";
           MovieItem (Some "/3") (Some "The Wire") "movie"].
Proof.
  split; [exact sort_key_text|]. split; [reflexivity|]. split; [reflexivity|].
  split; [|split; [|split; [|split; [|split]]]].
  - unfold get_content_items, log_decorator. intros items H. split.
    + apply ascending.
      eapply mapped_rows_Sorted; [exact H|apply get_content_items_rows_Sorted].
    + intros i Hi. apply mapped_rows in H as [_ H].
      destruct (H i Hi) as (r & Hr & Ht & _). exists r. split; [|exact Ht].
      apply get_content_items_rows_elem in Hr. tauto.
  - unfold get_show_episodes, log_decorator. intros items H. split.
    + apply ascending.
      eapply mapped_rows_Sorted; [exact H|apply order_by_Sorted].
    + intros i Hi. apply mapped_rows in H as [_ H].
      destruct (H i Hi) as (r & Hr & Ht & _). exists r. split; [|exact Ht].
      apply get_show_episodes_rows_elem in Hr. tauto.
  - unfold get_all_shows, log_decorator.
    apply ascending, Sorted_omap, order_by_Sorted.
  - unfold get_all_shows, log_decorator, get_all_shows_rows. intros t Ht.
    apply list_elem_of_omap in Ht as (x & Hx & Hxt). simpl in Hxt. subst x.
    apply order_by_elem_of, elem_of_distinct, list_elem_of_In, in_map_iff in Hx
      as (r & Hr & Hin).
    apply list_elem_of_In, elem_of_filterb in Hin as [Hin _]. exists r. auto.
  - unfold get_synced_dirs, utf8_decorator, log_decorator, get_synced_dirs_rows.
    apply ascending.
    eapply Sorted_same_keys; [|apply (order_by_Sorted (fun r => sort_key (Label r)))].
    rewrite map_map. apply map_ext. intros r. rewrite dict_label_synced. reflexivity.
  - reflexivity.
Qed.

Lemma sort_rule_witness :
  StronglySorted (key_le (fun i => sort_key (item_title i)))
    [MovieItem (Some "/2") (Some "Archer") "movie";
     MovieItem (Some "/1") (Some "The Office") "movie";
     MovieItem (Some "/3") (Some "The Wire") "movie"].
Proof.
  destruct (sort_rule office_archer_wire (Some "staged") None None)
    as (_ & _ & _ & H & _).
  destruct (H _ eq_refl) as [Hsorted _]. exact Hsorted.
Defined.

(** C1 as stated fails: a lowercase "the " is stripped too. The key of
    "the wire" is "wire", not the whole string, and so the show "uma" is
    listed before "the wire", although "the wire" compared whole sorts
    first. *)
Lemma sort_rule_lowercase_counterexample :
  sort_key (Some "the wire") = Some "wire"
  /\ spec_sort_key "the wire" = "the wire"
  /\ sort_key (Some "the wire") <> Some (spec_sort_key "the wire")
  /\ get_all_shows lowercase_article (Some "staged") = ["uma"; "the wire"]
  /\ sql_le (Some (spec_sort_key "uma")) (Some (spec_sort_key "the wire")) = false.
Proof. repeat split; try reflexivity. discriminate. Qed.

(** ** Looking up and inserting by path *)

Lemma sql_eq_true a b : sql_eq a b = true <-> exists x, a = Some x /\ b = Some x.
Proof.
  destruct a as [x|], b as [y|]; simpl.
  - rewrite String.eqb_eq. split.
    + intros ->. eauto.
    + intros (z & [= ->] & [= ->]). reflexivity.
  - split; [discriminate|]. intros (z & _ & [=]).
  - split; [discriminate|]. intros (z & [=] & _).
  - split; [discriminate|]. intros (z & [=] & _).
Qed.

Lemma sql_eq_Some_refl x : sql_eq (Some x) (Some x) = true.
Proof. apply String.eqb_refl. Qed.

Lemma absent_no_match p t r :
  absent p t -> r ∈ t -> sql_eq (Directory r) (Some p) = false.
Proof.
  intros Habs Hr. destruct (sql_eq (Directory r) (Some p)) eqn:E; [|reflexivity].
  apply sql_eq_true in E as (x & Hd & [= ->]). destruct (Habs r Hr Hd).
Qed.

Lemma absent_cons p r t :
  absent p (r :: t) <-> Directory r <> Some p /\ absent p t.
Proof.
  unfold absent. split.
  - intros H. split; [apply H; left|]. intros r' Hr'. apply H. right. exact Hr'.
  - intros [H1 H2] r' Hr'. apply elem_of_cons in Hr' as [->|Hr']; auto.
Qed.

Lemma absent_filter p t :
  absent p t -> List.filter (fun r => sql_eq (Directory r) (Some p)) t = [].
Proof.
  induction t as [|r t IH]; [reflexivity|]. intros H.
  simpl. rewrite (absent_no_match p (r :: t) r H) by left.
  apply IH. apply absent_cons in H. tauto.
Qed.

Lemma absent_existsb p t x :
  absent p t -> Directory x = Some p ->
  existsb (fun r => sql_eq (Directory r) (Directory x)) t = false.
Proof.
  intros H ->. induction t as [|r t IH]; [reflexivity|].
  simpl. rewrite (absent_no_match p (r :: t) r H) by left.
  apply IH. apply absent_cons in H. tauto.
Qed.

Lemma present_existsb p t x :
  (exists r, r ∈ t /\ Directory r = Some p) -> Directory x = Some p ->
  existsb (fun r => sql_eq (Directory r) (Directory x)) t = true.
Proof.
  intros (r & Hr & Hd) ->. apply existsb_exists. exists r.
  split; [apply list_elem_of_In, Hr|]. rewrite Hd. apply sql_eq_Some_refl.
Qed.

Lemma insert_or_ignore_absent p r t :
  absent p t -> Directory r = Some p -> insert_or_ignore r t = (t ++ [r])%list.
Proof.
  intros H Hd. unfold insert_or_ignore.
  rewrite (absent_existsb p t r H Hd). reflexivity.
Qed.

Lemma insert_or_ignore_present p r t :
  (exists r', r' ∈ t /\ Directory r' = Some p) -> Directory r = Some p ->
  insert_or_ignore r t = t.
Proof.
  intros H Hd. unfold insert_or_ignore.
  rewrite (present_existsb p t r H Hd). reflexivity.
Qed.

Lemma with_Content_same db : with_Content db (Content db) = db.
Proof. destruct db; reflexivity. Qed.

Lemma update_where_absent p f t : absent p t -> update_where (Some p) f t = t.
Proof.
  induction t as [|r t IH]; [reflexivity|]. intros H. simpl.
  rewrite (absent_no_match p (r :: t) r H) by left.
  f_equal. apply IH. apply absent_cons in H. tauto.
Qed.

(** Looking up a path that is not in Content ends in the TypeError of
    subscripting None, whatever else the table holds. *)
Lemma load_item_absent db p :
  absent p (Content db) -> load_item db (Some p) = Raise TypeError.
Proof.
  intros H. unfold load_item, utf8_decorator, log_decorator, load_item_row.
  rewrite absent_filter by exact H. reflexivity.
Qed.

(** C2 at its failing input: on the empty Content table [load_item('/a')]
    does not return an absent result, it raises TypeError, while
    [path_exists('/a')] on the same state answers False. *)
Theorem load_item_not_found_raises :
  load_item_row init (Some "/a") = None
  /\ load_item init (Some "/a") = Raise TypeError
  /\ path_exists init (Some "/a") None = false.
Proof. repeat split. Qed.

(** C4. For a path p that Content does not hold, add_content_item(p, t,
    'movie', show_title) succeeds, and the row then found at p is
    (p, t, 'movie', 'staged', NULL), which load_item returns as the movie
    entry (p, t, 'movie'), whatever show_title was passed. *)
Theorem add_movie_then_load (db : DB) (p t : string) (show_title : sqlval) :
  absent p (Content db) ->
  exists db',
    add_content_item db (Some p) (Some t) (Some "movie") show_title = OK db'
    /\ load_item_row db' (Some p)
       = Some (ContentRow (Some p) (Some t) (Some "movie") (Some "staged") None)
    /\ load_item db' (Some p) = OK (MovieItem (Some p) (Some t) "movie").
Proof.
  intros H. eexists. split; [reflexivity|].
  assert (Hrow : load_item_row
            (with_Content db
               (insert_or_ignore
                  (ContentRow (Some p) (Some t) (Some "movie") (Some "staged") None)
                  (Content db))) (Some p)
          = Some (ContentRow (Some p) (Some t) (Some "movie") (Some "staged") None)).
  { unfold load_item_row. simpl Content.
    rewrite (insert_or_ignore_absent p) by (exact H || reflexivity).
    rewrite List.filter_app, absent_filter by exact H.
    simpl. rewrite String.eqb_refl. reflexivity. }
  split; [exact Hrow|].
  unfold load_item, utf8_decorator, log_decorator. rewrite Hrow. reflexivity.
Qed.

Lemma add_movie_then_load_witness :
  exists db',
    add_content_item one_staged_movie (Some "/b") (Some "Brazil") (Some "movie")
      (Some "ignored") = OK db'
    /\ load_item_row db' (Some "/b")
       = Some (ContentRow (Some "/b") (Some "Brazil") (Some "movie")
                 (Some "staged") None)
    /\ load_item db' (Some "/b") = OK (MovieItem (Some "/b") (Some "Brazil") "movie").
Proof.
  apply (add_movie_then_load one_staged_movie "/b" "Brazil" (Some "ignored")).
  intros r Hr. apply list_elem_of_singleton in Hr. subst r. discriminate.
Defined.

(** ** add_content_item *)

(** An insert only ever appends: the rows that were there stay, in place. *)
Lemma insert_or_ignore_prefix r t : t `prefix_of` insert_or_ignore r t.
Proof.
  unfold insert_or_ignore. destruct (existsb _ t).
  - reflexivity.
  - exists [r]. reflexivity.
Qed.

Lemma add_content_item_prefix db path title mediatype show_title db' :
  add_content_item db path title mediatype show_title = OK db' ->
  Content db `prefix_of` Content db'.
Proof.
  unfold add_content_item, utf8_decorator, log_decorator.
  destruct (py_eq mediatype "movie"); [|destruct (py_eq mediatype "tvshow")];
    intros [= <-]; simpl; try apply insert_or_ignore_prefix; reflexivity.
Qed.

Lemma add_content_item_present db p title mediatype show_title :
  (exists r, r ∈ Content db /\ Directory r = Some p) ->
  add_content_item db (Some p) title mediatype show_title = OK db.
Proof.
  intros H. unfold add_content_item, utf8_decorator, log_decorator.
  destruct (py_eq mediatype "movie"); [|destruct (py_eq mediatype "tvshow")];
    rewrite ?(insert_or_ignore_present p) by (exact H || reflexivity);
    rewrite ?with_Content_same; reflexivity.
Qed.

Lemma add_content_item_inserts db p title mediatype show_title db' :
  known_kind mediatype = true ->
  add_content_item db (Some p) title mediatype show_title = OK db' ->
  exists r, r ∈ Content db' /\ Directory r = Some p.
Proof.
  unfold known_kind, add_content_item, utf8_decorator, log_decorator.
  intros Hk.
  assert (Hins : forall r, Directory r = Some p ->
            exists r', r' ∈ insert_or_ignore r (Content db) /\ Directory r' = Some p).
  { intros r Hd. unfold insert_or_ignore.
    destruct (existsb _ (Content db)) eqn:E.
    - apply existsb_exists in E as (r' & Hr' & E). rewrite Hd in E.
      apply sql_eq_true in E as (x & Hx & [= ->]).
      exists r'. split; [apply list_elem_of_In, Hr'|exact Hx].
    - exists r. split; [|exact Hd]. apply elem_of_app. right. left. }
  destruct (py_eq mediatype "movie"); [|destruct (py_eq mediatype "tvshow")];
    [| |discriminate]; intros [= <-]; simpl; apply Hins; reflexivity.
Qed.

(** C3. When Content already holds a row with directory p,
    add_content_item(p, t', m', s') returns with the database as it was, so
    that row keeps its title, kind, status and show title. In any state a
    first call add_content_item(p, t, m, s) keeps every earlier row in
    place, and so does a second call with the same path; when the first
    call was for a movie or a tvshow the second changes nothing at all. *)
Theorem add_content_item_idempotent
    (db : DB) (p : string) (t m s t' m' s' : sqlval) :
  ((exists r, r ∈ Content db /\ Directory r = Some p) ->
     add_content_item db (Some p) t' m' s' = OK db)
  /\ exists db1,
       add_content_item db (Some p) t m s = OK db1
       /\ Content db `prefix_of` Content db1
       /\ exists db2,
            add_content_item db1 (Some p) t' m' s' = OK db2
            /\ Content db1 `prefix_of` Content db2
            /\ (known_kind m = true -> db2 = db1).
Proof.
  split; [apply add_content_item_present|].
  destruct (add_content_item db (Some p) t m s) as [db1|e] eqn:H1.
  2:{ unfold add_content_item, utf8_decorator, log_decorator in H1.
      destruct (py_eq m "movie"); [|destruct (py_eq m "tvshow")]; discriminate. }
  exists db1. split; [reflexivity|].
  split; [eapply add_content_item_prefix, H1|].
  destruct (add_content_item db1 (Some p) t' m' s') as [db2|e] eqn:H2.
  2:{ unfold add_content_item, utf8_decorator, log_decorator in H2.
      destruct (py_eq m' "movie"); [|destruct (py_eq m' "tvshow")]; discriminate. }
  exists db2. split; [reflexivity|].
  split; [eapply add_content_item_prefix, H2|].
  intros Hk. apply (add_content_item_inserts _ _ _ _ _ _ Hk) in H1.
  rewrite (add_content_item_present db1 p t' m' s' H1) in H2. congruence.
Qed.

Lemma add_content_item_idempotent_witness :
  add_content_item one_staged_movie (Some "/a") (Some "Aliens") (Some "tvshow")
    (Some "Show") = OK one_staged_movie.
Proof.
  apply (add_content_item_idempotent one_staged_movie "/a"
           (Some "Alien") (Some "movie") None
           (Some "Aliens") (Some "tvshow") (Some "Show")).
  exists (staged_movie "/a" "Alien"). split; [left|reflexivity].
Defined.

(** C10. With a mediatype other than 'movie' and 'tvshow' (None included)
    add_content_item returns normally and the database, all three tables,
    is what it was. *)
Theorem add_content_item_other_kind
    (db : DB) (path title mediatype show_title : sqlval) :
  mediatype <> Some "movie" ->
  mediatype <> Some "tvshow" ->
  add_content_item db path title mediatype show_title = OK db.
Proof.
  intros Hm Ht. unfold add_content_item, utf8_decorator, log_decorator.
  destruct mediatype as [k|]; simpl; [|reflexivity].
  destruct (String.eqb_spec k "movie") as [->|_]; [congruence|].
  destruct (String.eqb_spec k "tvshow") as [->|_]; [congruence|].
  reflexivity.
Qed.

Lemma add_content_item_other_kind_witness :
  add_content_item one_staged_movie (Some "/c") (Some "Song") (Some "music") None
  = OK one_staged_movie.
Proof.
  apply (add_content_item_other_kind one_staged_movie
           (Some "/c") (Some "Song") (Some "music") None); discriminate.
Defined.

(** ** Updates by path *)

(** C6. For a path p that Content does not hold, update_content_status(p, s)
    and update_content_title(p, t) match no row, return normally, and leave
    the database as it was. *)
Theorem update_absent_path (db : DB) (p : string) (s t : sqlval) :
  absent p (Content db) ->
  update_rowcount (Some p) (Content db) = 0
  /\ update_content_status db (Some p) s = OK db
  /\ update_content_title db (Some p) t = OK db.
Proof.
  intros H. split; [|split].
  - unfold update_rowcount. rewrite absent_filter by exact H. reflexivity.
  - unfold update_content_status, utf8_decorator, log_decorator.
    rewrite update_where_absent by exact H. rewrite with_Content_same. reflexivity.
  - unfold update_content_title, utf8_decorator, log_decorator.
    rewrite update_where_absent by exact H. rewrite with_Content_same. reflexivity.
Qed.

Lemma update_absent_path_witness :
  update_rowcount (Some "/a") (Content init) = 0
  /\ update_content_status init (Some "/a") (Some "synced") = OK init
  /\ update_content_title init (Some "/a") (Some "A") = OK init.
Proof.
  apply (update_absent_path init "/a" (Some "synced") (Some "A")).
  intros r Hr. inversion Hr.
Defined.

(** ** Optional filters *)

(** C9. The optional filters are tested for truth, not for presence: an
    empty string behaves as no filter, in path_exists and in
    get_content_items. *)
Theorem empty_filter_is_no_filter (db : DB) (path status : sqlval) :
  path_exists db path (Some "") = path_exists db path None
  /\ path_exists db path (Some "")
     = existsb (fun r => sql_eq (Directory r) path) (Content db)
  /\ get_content_items db status (Some "") = get_content_items db status None.
Proof.
  split; [reflexivity|]. split; [|reflexivity].
  unfold path_exists, utf8_decorator, log_decorator. simpl.
  induction (Content db) as [|r t IH]; [reflexivity|].
  simpl. destruct (sql_eq (Directory r) path); [reflexivity|exact IH].
Qed.

(** ** Invariants of the calls *)

Lemma run_all_invariant (P : DB -> Prop) :
  (forall db c db', P db -> run db c = OK db' -> P db') ->
  forall cs db db', P db -> run_all db cs = OK db' -> P db'.
Proof.
  intros Hstep. induction cs as [|c cs IH]; simpl; intros db db' HP H.
  - injection H as <-. exact HP.
  - destruct (run db c) as [db1|e] eqn:Hc; simpl in H; [|discriminate].
    eapply IH; [|exact H]. eapply Hstep; [exact HP|exact Hc].
Qed.

Lemma delete_where_NoDup {A} (cond : A -> bool) t :
  NoDup t -> NoDup (delete_where cond t).
Proof.
  unfold delete_where. induction 1 as [|x t Hx Hnd IH]; simpl.
  - constructor.
  - destruct (negb (cond x)); [|exact IH].
    constructor; [|exact IH]. rewrite elem_of_filterb. tauto.
Qed.

Lemma delete_where_Forall {A} (P : A -> Prop) (cond : A -> bool) t :
  Forall P t -> Forall P (delete_where cond t).
Proof.
  rewrite !List.Forall_forall. intros H x Hx.
  apply filter_In in Hx as [Hx _]. auto.
Qed.

(** ** Blocked *)

Lemma blocked_matches_true v k r :
  blocked_matches (Some v) (Some k) r = true <-> r = BlockedRow v k.
Proof.
  destruct r as [v' k']. unfold blocked_matches. simpl.
  rewrite andb_true_iff, !String.eqb_eq. split.
  - intros [-> ->]. reflexivity.
  - intros [= -> ->]. auto.
Qed.

Lemma check_blocked_true db v k :
  check_blocked db (Some v) (Some k) = true <-> BlockedRow v k ∈ Blocked db.
Proof.
  unfold check_blocked, utf8_decorator, log_decorator.
  induction (Blocked db) as [|r t IH]; simpl.
  - split; [discriminate|]. intros H. inversion H.
  - destruct (blocked_matches (Some v) (Some k) r) eqn:E; simpl.
    + apply blocked_matches_true in E as ->. split; [left|reflexivity].
    + rewrite IH. split; [right; assumption|].
      intros H. apply elem_of_cons in H as [<-|H]; [|exact H].
      assert (blocked_matches (Some v) (Some k) (BlockedRow v k) = true)
        by (apply blocked_matches_true; reflexivity).
      congruence.
Qed.

Lemma check_blocked_false db v k :
  check_blocked db (Some v) (Some k) = false <-> BlockedRow v k ∉ Blocked db.
Proof.
  rewrite <- check_blocked_true. destruct (check_blocked db (Some v) (Some k)).
  - split; [discriminate|]. intros H. destruct H. reflexivity.
  - split; [discriminate|reflexivity].
Qed.

Lemma add_blocked_item_NoDup db value mediatype db' :
  NoDup (Blocked db) ->
  add_blocked_item db value mediatype = OK db' -> NoDup (Blocked db').
Proof.
  intros Hnd. unfold add_blocked_item, utf8_decorator, log_decorator.
  destruct (check_blocked db value mediatype) eqn:Hc; simpl.
  - intros [= <-]. exact Hnd.
  - destruct value as [v|], mediatype as [k|]; simpl; try discriminate.
    intros [= <-]. simpl. apply NoDup_app. split; [exact Hnd|]. split.
    + intros r Hr Hr'. apply list_elem_of_singleton in Hr'. subst r.
      apply check_blocked_false in Hc. contradiction.
    + apply NoDup_singleton.
Qed.

Lemma run_Blocked_NoDup db c db' :
  NoDup (Blocked db) -> run db c = OK db' -> NoDup (Blocked db').
Proof.
  intros Hnd. destruct c; simpl;
    try (intros [= <-]; simpl; first [exact Hnd | apply delete_where_NoDup, Hnd]).
  - unfold add_content_item, utf8_decorator, log_decorator.
    destruct (py_eq mediatype "movie"); [|destruct (py_eq mediatype "tvshow")];
      intros [= <-]; exact Hnd.
  - apply add_blocked_item_NoDup, Hnd.
Qed.

Lemma blocked_count_NoDup v k t :
  NoDup t -> BlockedRow v k ∈ t -> blocked_count v k t = 1.
Proof.
  unfold blocked_count. induction 1 as [|r t Hr Hnd IH]; intros Hin.
  - inversion Hin.
  - simpl. destruct (blocked_matches (Some v) (Some k) r) eqn:E.
    + apply blocked_matches_true in E. subst r. simpl. f_equal.
      destruct (List.filter _ t) as [|r' t'] eqn:F; [reflexivity|].
      assert (Hr' : In r' (List.filter (blocked_matches (Some v) (Some k)) t))
        by (rewrite F; left; reflexivity).
      apply filter_In in Hr' as [Hr' Hm]. apply blocked_matches_true in Hm.
      subst r'. apply list_elem_of_In in Hr'. contradiction.
    + apply IH. apply elem_of_cons in Hin as [<-|Hin]; [|exact Hin].
      assert (blocked_matches (Some v) (Some k) (BlockedRow v k) = true)
        by (apply blocked_matches_true; reflexivity).
      congruence.
Qed.

Lemma add_blocked_item_text db v k :
  exists db1,
    add_blocked_item db (Some v) (Some k) = OK db1
    /\ BlockedRow v k ∈ Blocked db1
    /\ forall r, r <> BlockedRow v k -> r ∈ Blocked db1 <-> r ∈ Blocked db.
Proof.
  unfold add_blocked_item, utf8_decorator, log_decorator.
  destruct (check_blocked db (Some v) (Some k)) eqn:Hc; simpl.
  - exists db. split; [reflexivity|]. split; [apply check_blocked_true, Hc|tauto].
  - eexists. split; [reflexivity|]. simpl. split.
    + apply elem_of_app. right. left.
    + intros r Hr. rewrite elem_of_app, list_elem_of_singleton. tauto.
Qed.

(** C5, as the code has it. From a state whose Blocked table has no
    duplicate rows, every call
    that returns, and every sequence of calls, leaves it without duplicates.
    add_blocked_item(v, k) returns, a second add_blocked_item(v, k) changes
    nothing, Blocked then holds exactly one row (v, k), check_blocked(v, k)
    is true, and for a different kind k' check_blocked(v, k') is what it was
    before the two calls: false when (v, k') had not been blocked. *)
Theorem blocked_no_duplicates (db : DB) (v k : string) :
  NoDup (Blocked db) ->
  (forall c db', run db c = OK db' -> NoDup (Blocked db'))
  /\ (forall cs db', run_all db cs = OK db' -> NoDup (Blocked db'))
  /\ exists db1,
       add_blocked_item db (Some v) (Some k) = OK db1
       /\ add_blocked_item db1 (Some v) (Some k) = OK db1
       /\ blocked_count v k (Blocked db1) = 1
       /\ check_blocked db1 (Some v) (Some k) = true
       /\ forall k', k' <> k ->
            check_blocked db1 (Some v) (Some k') = check_blocked db (Some v) (Some k')
            /\ (BlockedRow v k' ∉ Blocked db ->
                check_blocked db1 (Some v) (Some k') = false).
Proof.
  intros Hnd. split; [|split].
  - intros c db'. apply run_Blocked_NoDup, Hnd.
  - intros cs db'. apply (run_all_invariant (fun d => NoDup (Blocked d)));
      [apply run_Blocked_NoDup|exact Hnd].
  - destruct (add_blocked_item_text db v k) as (db1 & H1 & Hin & Hother).
    exists db1. split; [exact H1|].
    assert (Hc : check_blocked db1 (Some v) (Some k) = true)
      by (apply check_blocked_true, Hin).
    split; [|split; [|split; [exact Hc|]]].
    + unfold add_blocked_item, utf8_decorator, log_decorator. rewrite Hc. reflexivity.
    + apply blocked_count_NoDup; [|exact Hin].
      eapply add_blocked_item_NoDup; [exact Hnd|exact H1].
    + intros k' Hk'.
      assert (Hiff : BlockedRow v k' ∈ Blocked db1 <-> BlockedRow v k' ∈ Blocked db)
        by (apply Hother; congruence).
      assert (Heq : check_blocked db1 (Some v) (Some k')
                    = check_blocked db (Some v) (Some k')).
      { destruct (check_blocked db (Some v) (Some k')) eqn:E.
        - apply check_blocked_true, Hiff, check_blocked_true, E.
        - apply check_blocked_false. rewrite Hiff. apply check_blocked_false, E. }
      split; [exact Heq|]. intros Hno. rewrite Heq. apply check_blocked_false, Hno.
Qed.

Lemma blocked_no_duplicates_witness :
  exists db1,
    add_blocked_item init (Some "Trailer") (Some "movie") = OK db1
    /\ add_blocked_item db1 (Some "Trailer") (Some "movie") = OK db1
    /\ blocked_count "Trailer" "movie" (Blocked db1) = 1
    /\ check_blocked db1 (Some "Trailer") (Some "movie") = true
    /\ check_blocked db1 (Some "Trailer") (Some "tvshow") = false.
Proof.
  destruct (blocked_no_duplicates init "Trailer" "movie" (NoDup_nil_2 (A := blocked_row)))
    as (_ & _ & db1 & H1 & H2 & H3 & H4 & H5).
  exists db1. repeat (split; [assumption|]).
  apply (H5 "tvshow"); [discriminate|]. intros H. inversion H.
Defined.

(** C5 as stated fails where the value is already blocked for the other
    kind: after add_blocked_item('Trailer', 'tvshow') on empty tables,
    which leaves Blocked without duplicates, two calls of
    add_blocked_item('Trailer', 'movie') leave check_blocked('Trailer',
    'tvshow') True. *)
Lemma blocked_other_kind_counterexample :
  run_all init [Add_blocked_item (Some "Trailer") (Some "tvshow")]
  = OK trailer_blocked_for_tvshow
  /\ NoDup (Blocked trailer_blocked_for_tvshow)
  /\ exists db1,
       add_blocked_item trailer_blocked_for_tvshow (Some "Trailer") (Some "movie")
       = OK db1
       /\ add_blocked_item db1 (Some "Trailer") (Some "movie") = OK db1
       /\ check_blocked db1 (Some "Trailer") (Some "tvshow") = true.
Proof.
  split; [reflexivity|]. split; [apply NoDup_singleton|].
  eexists. split; [reflexivity|]. split; reflexivity.
Qed.

(** ** Show titles *)

Lemma NoDup_omap_id (l : list sqlval) : NoDup l -> NoDup (omap id l).
Proof.
  induction 1 as [|x l Hx Hnd IH]; simpl; [constructor|].
  destruct x as [s|]; simpl; [|exact IH].
  constructor; [|exact IH]. rewrite list_elem_of_omap.
  intros (y & Hy & Hys). simpl in Hys. subst y. contradiction.
Qed.

Lemma get_all_shows_NoDup db status : NoDup (get_all_shows db status).
Proof.
  unfold get_all_shows, log_decorator, get_all_shows_rows.
  apply NoDup_omap_id. rewrite <- order_by_Permutation. apply NoDup_distinct.
Qed.

Lemma get_all_shows_elem db status t :
  t ∈ get_all_shows db status <->
  exists r, r ∈ Content db /\ sql_eq (Status r) status = true
            /\ Show_Title r = Some t.
Proof.
  unfold get_all_shows, log_decorator, get_all_shows_rows.
  rewrite list_elem_of_omap. split.
  - intros (x & Hx & Hxt). simpl in Hxt. subst x.
    apply order_by_elem_of, elem_of_distinct, list_elem_of_In, in_map_iff in Hx
      as (r & Hr & Hin).
    apply list_elem_of_In, elem_of_filterb in Hin as [Hin Hs]. exists r. auto.
  - intros (r & Hr & Hs & Ht). exists (Some t). split; [|reflexivity].
    apply order_by_elem_of, elem_of_distinct, list_elem_of_In, in_map_iff.
    exists r. split; [exact Ht|]. apply list_elem_of_In, elem_of_filterb. auto.
Qed.

Lemma insert_or_ignore_Forall (P : content_row -> Prop) r t :
  P r -> Forall P t -> Forall P (insert_or_ignore r t).
Proof.
  intros Hr Ht. unfold insert_or_ignore. destruct (existsb _ t); [exact Ht|].
  apply Forall_app. split; [exact Ht|]. constructor; [exact Hr|constructor].
Qed.

Lemma py_eq_true a lit : py_eq a lit = true -> a = Some lit.
Proof.
  destruct a as [x|]; simpl; [|discriminate].
  intros H. apply String.eqb_eq in H. congruence.
Qed.

Lemma update_where_store_row path f t :
  (forall r, store_row r -> store_row (f r)) ->
  Forall store_row t -> Forall store_row (update_where path f t).
Proof.
  intros Hf. unfold update_where. induction 1 as [|r t Hr Ht IH]; simpl.
  - constructor.
  - constructor; [|exact IH]. destruct (sql_eq (Directory r) path); auto.
Qed.

Lemma run_store_built db c db' :
  store_built db -> run db c = OK db' -> store_built db'.
Proof.
  unfold store_built. intros Hsb. destruct c; simpl;
    try (intros [= <-]; simpl;
         first [exact Hsb | apply delete_where_Forall, Hsb]).
  - unfold add_content_item, utf8_decorator, log_decorator.
    destruct (py_eq mediatype "movie") eqn:Em;
      [|destruct (py_eq mediatype "tvshow") eqn:Et];
      intros [= <-]; simpl; try exact Hsb;
      apply insert_or_ignore_Forall; try exact Hsb.
    + left. simpl. split; [apply py_eq_true, Em|reflexivity].
    + right. simpl. apply py_eq_true, Et.
  - intros [= <-]. simpl. apply update_where_store_row; [|exact Hsb].
    intros r Hr. exact Hr.
  - intros [= <-]. simpl. apply update_where_store_row; [|exact Hsb].
    intros r Hr. exact Hr.
  - unfold add_blocked_item, utf8_decorator, log_decorator.
    destruct (negb (check_blocked db value mediatype)).
    + destruct value, mediatype; simpl; try discriminate. intros [= <-]. exact Hsb.
    + intros [= <-]. exact Hsb.
Qed.

Lemma run_all_store_built cs db :
  run_all init cs = OK db -> store_built db.
Proof.
  apply (run_all_invariant store_built).
  - apply run_store_built.
  - constructor.
Qed.

(** C7, as the code has it. For every status, get_all_shows returns without
    repetition exactly the non-null show titles of the Content rows with
    that status: the query has no condition on the kind. Rows without show
    title are left out; movie rows are left out wherever they carry no show
    title, which holds in every state the calls of the store build from an
    empty database, and there the result is exactly the show titles of the
    tvshow rows with that status. *)
Theorem get_all_shows_titles (db : DB) (status : sqlval) :
  NoDup (get_all_shows db status)
  /\ (forall t,
        t ∈ get_all_shows db status <->
        exists r, r ∈ Content db /\ sql_eq (Status r) status = true
                  /\ Show_Title r = Some t)
  /\ (store_built db ->
      forall t,
        t ∈ get_all_shows db status <->
        exists r, r ∈ Content db /\ sql_eq (Status r) status = true
                  /\ Mediatype r = Some "tvshow" /\ Show_Title r = Some t)
  /\ (forall cs, run_all init cs = OK db -> store_built db).
Proof.
  split; [apply get_all_shows_NoDup|].
  split; [apply get_all_shows_elem|].
  split; [|intros cs; apply run_all_store_built].
  intros Hsb t. rewrite get_all_shows_elem. split.
  - intros (r & Hr & Hs & Ht). exists r. repeat (split; [assumption|]).
    split; [|exact Ht].
    unfold store_built in Hsb. rewrite Forall_forall in Hsb.
    destruct (Hsb r Hr) as [[_ Hnull]|Htv]; [congruence|exact Htv].
  - intros (r & Hr & Hs & _ & Ht). exists r. auto.
Qed.

Lemma get_all_shows_titles_witness :
  "Some Show" ∈ get_all_shows
    (MkDB [episode "/e" "Pilot" "staged" "Some Show"; staged_movie "/a" "Alien"]
       [] [])
    (Some "staged").
Proof.
  destruct (get_all_shows_titles
              (MkDB [episode "/e" "Pilot" "staged" "Some Show";
                     staged_movie "/a" "Alien"] [] [])
              (Some "staged")) as (_ & _ & H & _).
  apply H.
  - constructor; [right; reflexivity|].
    constructor; [left; split; reflexivity|constructor].
  - exists (episode "/e" "Pilot" "staged" "Some Show").
    split; [left|]. repeat split.
Defined.

(** C7 as stated fails where a movie row carries a show title: the title is
    listed although no tvshow row has it. *)
Lemma get_all_shows_movie_counterexample :
  get_all_shows movie_with_show_title (Some "staged") = ["Some Show"]
  /\ ~ exists r, r ∈ Content movie_with_show_title
                 /\ Mediatype r = Some "tvshow"
                 /\ Show_Title r = Some "Some Show".
Proof.
  split; [reflexivity|]. intros (r & Hr & Hk & _).
  apply list_elem_of_singleton in Hr. subst r. discriminate.
Qed.

(** ** The row mapping and its errors *)

Lemma content_item_from_db_rule r :
  (Mediatype r = Some "movie" ->
     content_item_from_db (Some r) = OK (MovieItem (Directory r) (Title r) "movie"))
  /\ (Mediatype r = Some "tvshow" ->
        content_item_from_db (Some r)
        = OK (EpisodeItem (Directory r) (Title r) "tvshow" (Show_Title r)))
  /\ (known_kind (Mediatype r) = false ->
        content_item_from_db (Some r) = Raise ValueError).
Proof.
  unfold known_kind. simpl. repeat split.
  - intros ->. reflexivity.
  - intros ->. reflexivity.
  - intros H. apply orb_false_iff in H as [-> ->]. reflexivity.
Qed.

Lemma content_item_from_db_raises r :
  raises (content_item_from_db (Some r)) = negb (known_kind (Mediatype r)).
Proof.
  unfold known_kind. simpl.
  destruct (py_eq (Mediatype r) "movie"); [reflexivity|].
  destruct (py_eq (Mediatype r) "tvshow"); reflexivity.
Qed.

(** The two list queries raise exactly when a selected row has a kind the
    mapping does not know. *)
Lemma get_content_items_raises db status mediatype :
  raises (get_content_items db status mediatype)
  = existsb (fun r => negb (known_kind (Mediatype r)))
      (get_content_items_rows db status mediatype).
Proof.
  unfold get_content_items, log_decorator. rewrite comprehension_raises.
  induction (get_content_items_rows db status mediatype) as [|r t IH];
    [reflexivity|].
  cbn [existsb]. rewrite content_item_from_db_raises, IH. reflexivity.
Qed.

Lemma get_show_episodes_raises db status show_title :
  raises (get_show_episodes db status show_title)
  = existsb (fun r => negb (known_kind (Mediatype r)))
      (get_show_episodes_rows db status show_title).
Proof.
  unfold get_show_episodes, log_decorator. rewrite comprehension_raises.
  induction (get_show_episodes_rows db status show_title) as [|r t IH];
    [reflexivity|].
  cbn [existsb]. rewrite content_item_from_db_raises, IH. reflexivity.
Qed.

(** [load_item] ends in the mapping error exactly when the row it fetched
    has an unknown kind; with no row fetched it ends in TypeError. *)
Lemma load_item_ValueError db path :
  load_item db path = Raise ValueError <->
  exists r, load_item_row db path = Some r /\ known_kind (Mediatype r) = false.
Proof.
  unfold load_item, utf8_decorator, log_decorator.
  destruct (load_item_row db path) as [r|].
  - pose proof (content_item_from_db_raises r) as Hr.
    destruct (content_item_from_db_rule r) as (_ & _ & Hbad). split.
    + intros H. exists r. split; [reflexivity|].
      rewrite H in Hr. simpl in Hr. destruct (known_kind (Mediatype r));
        [discriminate|reflexivity].
    + intros (r' & [= <-] & Hk). apply Hbad, Hk.
  - simpl. split; [discriminate|]. intros (r & [=] & _).
Qed.

Lemma known_kind_false m :
  known_kind m = false <-> m <> Some "movie" /\ m <> Some "tvshow".
Proof.
  unfold known_kind. rewrite orb_false_iff. destruct m as [k|]; simpl.
  - rewrite !String.eqb_neq. split; intros [H1 H2]; split; congruence.
  - split; [intros _; split; discriminate|auto].
Qed.

Lemma mapping_only_raises_ValueError rows e :
  comprehension (fun x => content_item_from_db (Some x)) rows = Raise e ->
  e = ValueError.
Proof.
  induction rows as [|r rows IH]; simpl; [discriminate|].
  destruct (py_eq (Mediatype r) "movie"); simpl;
    [|destruct (py_eq (Mediatype r) "tvshow"); simpl];
    try (destruct (comprehension _ rows); simpl; [discriminate|];
         intros [= <-]; apply IH; reflexivity).
  intros [= <-]. reflexivity.
Qed.

Lemma raises_ValueError {A} (m : result A) :
  (forall e, m = Raise e -> e = ValueError) ->
  m = Raise ValueError <-> raises m = true.
Proof.
  intros H. destruct m as [a|e]; simpl.
  - split; discriminate.
  - rewrite (H e eq_refl). split; reflexivity.
Qed.

Lemma unknown_kind_among rows :
  existsb (fun r => negb (known_kind (Mediatype r))) rows = true <->
  exists x, x ∈ rows
            /\ Mediatype x <> Some "movie" /\ Mediatype x <> Some "tvshow".
Proof.
  rewrite existsb_exists. split; intros (x & Hx & H); exists x.
  - split; [apply list_elem_of_In, Hx|].
    apply known_kind_false, negb_true_iff, H.
  - split; [apply list_elem_of_In, Hx|].
    apply negb_true_iff, known_kind_false, H.
Qed.

(** C8. A Content row of kind 'movie' is mapped to the movie entry (path,
    title, kind), a row of kind 'tvshow' to the episode entry (path, title,
    kind, show title), and a row of any other kind raises the mapping error
    (ValueError): nothing is coerced. So each read that maps rows ends in
    the mapping error exactly when a row it fetched has a kind other than
    'movie' and 'tvshow'; for get_content_items and get_show_episodes that
    is the only exception there is. *)
Theorem row_mapping
    (db : DB) (r : content_row) (status mediatype show_title path : sqlval) :
  (Mediatype r = Some "movie" ->
     content_item_from_db (Some r) = OK (MovieItem (Directory r) (Title r) "movie"))
  /\ (Mediatype r = Some "tvshow" ->
        content_item_from_db (Some r)
        = OK (EpisodeItem (Directory r) (Title r) "tvshow" (Show_Title r)))
  /\ (Mediatype r <> Some "movie" -> Mediatype r <> Some "tvshow" ->
        content_item_from_db (Some r) = Raise ValueError)
  /\ (get_content_items db status mediatype = Raise ValueError <->
        exists x, x ∈ get_content_items_rows db status mediatype
                  /\ Mediatype x <> Some "movie" /\ Mediatype x <> Some "tvshow")
  /\ (forall e, get_content_items db status mediatype = Raise e -> e = ValueError)
  /\ (get_show_episodes db status show_title = Raise ValueError <->
        exists x, x ∈ get_show_episodes_rows db status show_title
                  /\ Mediatype x <> Some "movie" /\ Mediatype x <> Some "tvshow")
  /\ (forall e, get_show_episodes db status show_title = Raise e -> e = ValueError)
  /\ (load_item db path = Raise ValueError <->
        exists x, load_item_row db path = Some x
                  /\ Mediatype x <> Some "movie" /\ Mediatype x <> Some "tvshow").
Proof.
  destruct (content_item_from_db_rule r) as (Hm & Ht & Hbad).
  split; [exact Hm|]. split; [exact Ht|].
  split; [intros H1 H2; apply Hbad, known_kind_false; auto|].
  assert (Hc : forall e, get_content_items db status mediatype = Raise e ->
                         e = ValueError)
    by (intros e; apply mapping_only_raises_ValueError).
  assert (Hs : forall e, get_show_episodes db status show_title = Raise e ->
                         e = ValueError)
    by (intros e; apply mapping_only_raises_ValueError).
  split; [|split; [exact Hc|split; [|split; [exact Hs|]]]].
  - rewrite (raises_ValueError _ Hc), get_content_items_raises.
    apply unknown_kind_among.
  - rewrite (raises_ValueError _ Hs), get_show_episodes_raises.
    apply unknown_kind_among.
  - rewrite load_item_ValueError. split; intros (x & Hx & H); exists x;
      (split; [exact Hx|]); apply known_kind_false, H.
Qed.

Lemma row_mapping_witness :
  content_item_from_db
    (Some (ContentRow (Some "/s") (Some "Song") (Some "music") (Some "staged") None))
  = Raise ValueError.
Proof.
  destruct (row_mapping init
              (ContentRow (Some "/s") (Some "Song") (Some "music") (Some "staged")
                 None) None None None None) as (_ & _ & H & _).
  apply H; discriminate.
Defined.

(** * Further properties of the store *)

(** ** path_exists *)

Lemma fetchone_found {A B} (f : A -> B) (g : A -> bool) (l : list A) :
  py_bool (fetchone (map f (List.filter g l))) = existsb g l.
Proof.
  induction l as [|x l IH]; [reflexivity|].
  simpl. destruct (g x); [reflexivity|exact IH].
Qed.

Lemma path_exists_existsb db path status :
  path_exists db path status
  = if truthy status then
      existsb (fun r => sql_eq (Directory r) path && sql_eq (Status r) status)
        (Content db)
    else existsb (fun r => sql_eq (Directory r) path) (Content db).
Proof.
  unfold path_exists, utf8_decorator, log_decorator.
  destruct (truthy status); apply fetchone_found.
Qed.

Lemma sql_eq_Some a x : sql_eq a (Some x) = true <-> a = Some x.
Proof.
  rewrite sql_eq_true. split.
  - intros (y & -> & [= ->]). reflexivity.
  - intros ->. eauto.
Qed.

Lemma truthy_Some status : truthy status = true -> exists s, status = Some s.
Proof. destruct status as [s|]; [eauto|discriminate]. Qed.

Lemma path_exists_true (db : DB) (p : string) (status : sqlval) :
  path_exists db (Some p) status = true <->
  exists r, r ∈ Content db /\ Directory r = Some p
            /\ (truthy status = true -> Status r = status).
Proof.
  rewrite path_exists_existsb. destruct (truthy status) eqn:Ht.
  - destruct (truthy_Some status Ht) as [s ->].
    rewrite existsb_exists. split.
    + intros (r & Hr & H). apply andb_true_iff in H as [Hd Hs].
      apply sql_eq_Some in Hd, Hs. exists r.
      split; [apply list_elem_of_In, Hr|]. auto.
    + intros (r & Hr & Hd & Hs). exists r.
      split; [apply list_elem_of_In, Hr|].
      apply andb_true_iff. rewrite !sql_eq_Some. auto.
  - rewrite existsb_exists. split.
    + intros (r & Hr & Hd). apply sql_eq_Some in Hd. exists r.
      split; [apply list_elem_of_In, Hr|]. split; [exact Hd|discriminate].
    + intros (r & Hr & Hd & _). exists r.
      split; [apply list_elem_of_In, Hr|]. apply sql_eq_Some, Hd.
Qed.

(** path_exists(p, status) is True exactly when Content holds a row with
    directory p and, when a non-empty status is passed, with that status;
    without a status (None or the empty string) the status of the row does
    not matter. *)
Theorem path_exists_iff (db : DB) (p : string) (status : sqlval) :
  path_exists db (Some p) status = true <->
  exists r, r ∈ Content db /\ Directory r = Some p
            /\ (truthy status = true -> Status r = status).
Proof. apply path_exists_true. Qed.

(** ** Deleting by key *)

Lemma delete_where_elem {A} (cond : A -> bool) (t : list A) (x : A) :
  x ∈ delete_where cond t <-> x ∈ t /\ cond x = false.
Proof.
  unfold delete_where. rewrite elem_of_filterb, negb_true_iff. reflexivity.
Qed.

Lemma delete_where_none {A} (cond : A -> bool) (t : list A) :
  (forall x, x ∈ t -> cond x = false) -> delete_where cond t = t.
Proof.
  unfold delete_where. induction t as [|x t IH]; intros H; [reflexivity|].
  simpl. rewrite (H x) by left. simpl. f_equal. apply IH.
  intros y Hy. apply H. right. exact Hy.
Qed.

Lemma absent_delete p t :
  absent p (delete_where (fun r => sql_eq (Directory r) (Some p)) t).
Proof.
  intros r Hr Hd. apply delete_where_elem in Hr as [_ Hr].
  rewrite Hd, sql_eq_Some_refl in Hr. discriminate.
Qed.

Lemma path_exists_absent db p status :
  absent p (Content db) -> path_exists db (Some p) status = false.
Proof.
  intros H. destruct (path_exists db (Some p) status) eqn:E; [|reflexivity].
  apply path_exists_true in E as (r & Hr & Hd & _). destruct (H r Hr Hd).
Qed.

(** After remove_content_item(p) no row has directory p: path_exists(p)
    is False with any status and load_item(p) raises; the rows of the other
    directories are the ones that were there. *)
Theorem remove_content_item_removes (db : DB) (p : string) (status : sqlval) :
  exists db',
    remove_content_item db (Some p) = OK db'
    /\ path_exists db' (Some p) status = false
    /\ load_item db' (Some p) = Raise TypeError
    /\ (forall r, r ∈ Content db' <-> r ∈ Content db /\ Directory r <> Some p)
    /\ Synced db' = Synced db /\ Blocked db' = Blocked db.
Proof.
  eexists. split; [reflexivity|]. simpl.
  split; [apply path_exists_absent, absent_delete|].
  split; [apply load_item_absent, absent_delete|].
  split; [|split; reflexivity].
  intros r. rewrite delete_where_elem. split; intros [Hr H]; (split; [exact Hr|]).
  - intros Hd. rewrite Hd, sql_eq_Some_refl in H. discriminate.
  - destruct (sql_eq (Directory r) (Some p)) eqn:E; [|reflexivity].
    apply sql_eq_Some in E. contradiction.
Qed.

(** Adding an entry at a path that was free and removing it again gives
    back the database that was there, for every kind passed to
    add_content_item. *)
Theorem add_then_remove_content_item
    (db db1 : DB) (p : string) (title mediatype show_title : sqlval) :
  absent p (Content db) ->
  add_content_item db (Some p) title mediatype show_title = OK db1 ->
  remove_content_item db1 (Some p) = OK db.
Proof.
  intros Habs. unfold add_content_item, remove_content_item, utf8_decorator,
    log_decorator.
  assert (Hsame : delete_where (fun r => sql_eq (Directory r) (Some p)) (Content db)
                  = Content db).
  { apply delete_where_none. intros r Hr. eapply absent_no_match; eauto. }
  assert (Hins : forall r, Directory r = Some p ->
            OK (with_Content (with_Content db (insert_or_ignore r (Content db)))
                  (delete_where (fun r => sql_eq (Directory r) (Some p))
                     (Content (with_Content db (insert_or_ignore r (Content db))))))
            = OK db).
  { intros r Hd. simpl Content. rewrite (insert_or_ignore_absent p) by assumption.
    unfold delete_where in *. rewrite List.filter_app, Hsame. simpl.
    rewrite Hd, sql_eq_Some_refl. simpl. rewrite app_nil_r.
    destruct db; reflexivity. }
  destruct (py_eq mediatype "movie"); [|destruct (py_eq mediatype "tvshow")];
    intros [= <-].
  - apply Hins. reflexivity.
  - apply Hins. reflexivity.
  - rewrite Hsame, with_Content_same. reflexivity.
Qed.

Lemma add_then_remove_content_item_witness :
  remove_content_item
    (MkDB [staged_movie "/a" "Alien";
           ContentRow (Some "/b") (Some "Brazil") (Some "movie") (Some "staged") None]
       [] [])
    (Some "/b")
  = OK one_staged_movie.
Proof.
  apply (add_then_remove_content_item one_staged_movie _ "/b" (Some "Brazil")
           (Some "movie") None).
  - intros r Hr. apply list_elem_of_singleton in Hr. subst r. discriminate.
  - reflexivity.
Defined.

(** ** Updating by key *)

Lemma update_where_filter path f q t :
  (forall r, Directory (f r) = Directory r) ->
  List.filter (fun r => sql_eq (Directory r) q) (update_where path f t)
  = update_where path f (List.filter (fun r => sql_eq (Directory r) q) t).
Proof.
  intros Hf. unfold update_where. induction t as [|r t IH]; [reflexivity|].
  simpl.
  assert (Hd : Directory (if sql_eq (Directory r) path then f r else r)
               = Directory r)
    by (destruct (sql_eq (Directory r) path); [apply Hf|reflexivity]).
  rewrite Hd. destruct (sql_eq (Directory r) q); simpl; rewrite IH; reflexivity.
Qed.

Lemma update_where_Directory path f t :
  (forall r, Directory (f r) = Directory r) ->
  map Directory (update_where path f t) = map Directory t.
Proof.
  intros Hf. unfold update_where. rewrite map_map. apply map_ext.
  intros r. destruct (sql_eq (Directory r) path); [apply Hf|reflexivity].
Qed.

Lemma load_item_row_update db p f q :
  (forall r, Directory (f r) = Directory r) ->
  load_item_row (with_Content db (update_where (Some p) f (Content db))) q
  = if sql_eq q (Some p) then f <$> load_item_row db q else load_item_row db q.
Proof.
  intros Hf. unfold load_item_row. simpl Content.
  rewrite update_where_filter by exact Hf.
  destruct (List.filter (fun r => sql_eq (Directory r) q) (Content db))
    as [|r t] eqn:E.
  - simpl. destruct (sql_eq q (Some p)); reflexivity.
  - assert (Hr : In r (List.filter (fun r => sql_eq (Directory r) q) (Content db)))
      by (rewrite E; left; reflexivity).
    apply filter_In in Hr as [_ Hr]. apply sql_eq_true in Hr as (x & Hd & ->).
    simpl. rewrite Hd. simpl. destruct (String.eqb x p); reflexivity.
Qed.

Lemma sql_eq_other q p : q <> Some p -> sql_eq q (Some p) = false.
Proof.
  intros H. destruct (sql_eq q (Some p)) eqn:E; [|reflexivity].
  apply sql_eq_Some in E. contradiction.
Qed.

Lemma content_item_status s o :
  content_item_from_db (set_Status s <$> o) = content_item_from_db o.
Proof. destruct o as [r|]; reflexivity. Qed.

Lemma content_item_retitle t o :
  content_item_from_db (set_Title t <$> o)
  = (i ← content_item_from_db o; OK (retitle t i)).
Proof.
  destruct o as [r|]; [|reflexivity]. simpl.
  destruct (py_eq (Mediatype r) "movie"); [reflexivity|].
  destruct (py_eq (Mediatype r) "tvshow"); reflexivity.
Qed.

(** update_content_status(p, s) returns normally; the row found at p
    afterwards is the row that was there with its status replaced by s, the
    rows found at other paths are unchanged, no directory is added or lost,
    and load_item(p), whose entry carries no status, answers as before. *)
Theorem update_content_status_lookup (db : DB) (p : string) (s : sqlval) :
  exists db',
    update_content_status db (Some p) s = OK db'
    /\ load_item_row db' (Some p) = set_Status s <$> load_item_row db (Some p)
    /\ (forall q, q <> Some p -> load_item_row db' q = load_item_row db q)
    /\ load_item db' (Some p) = load_item db (Some p)
    /\ map Directory (Content db') = map Directory (Content db).
Proof.
  eexists. split; [reflexivity|].
  assert (Hp : load_item_row
                 (with_Content db
                    (update_where (Some p) (set_Status s) (Content db))) (Some p)
               = set_Status s <$> load_item_row db (Some p)).
  { rewrite load_item_row_update by reflexivity.
    rewrite sql_eq_Some_refl. reflexivity. }
  split; [exact Hp|]. split; [|split].
  - intros q Hq. rewrite load_item_row_update by reflexivity.
    rewrite sql_eq_other by exact Hq. reflexivity.
  - unfold load_item, utf8_decorator, log_decorator. rewrite Hp.
    apply content_item_status.
  - apply update_where_Directory. reflexivity.
Qed.

(** After update_content_status(p, s) with a non-empty status s,
    path_exists(p, s) is True exactly when the path was in Content before
    the call. *)
Theorem update_content_status_path_exists (db db' : DB) (p : string) (s : sqlval) :
  truthy s = true ->
  update_content_status db (Some p) s = OK db' ->
  path_exists db' (Some p) s = path_exists db (Some p) None.
Proof.
  intros Ht [= <-]. rewrite !path_exists_existsb, Ht. simpl.
  destruct (truthy_Some s Ht) as [x ->].
  unfold update_where. induction (Content db) as [|r t IH]; [reflexivity|].
  simpl. rewrite IH. f_equal.
  destruct (sql_eq (Directory r) (Some p)) eqn:E; simpl.
  - rewrite E. simpl. apply String.eqb_refl.
  - rewrite E. reflexivity.
Qed.

Lemma update_content_status_path_exists_witness :
  path_exists
    (MkDB [ContentRow (Some "/a") (Some "Alien") (Some "movie") (Some "synced") None]
       [] [])
    (Some "/a") (Some "synced")
  = path_exists one_staged_movie (Some "/a") None.
Proof.
  apply (update_content_status_path_exists one_staged_movie _ "/a" (Some "synced"));
    reflexivity.
Defined.

(** update_content_title(p, t) returns normally, and load_item(p) then
    answers as it did before the call with the title of the entry replaced
    by t: the same kind of entry, the same error when there was one; the
    rows found at other paths are unchanged. *)
Theorem update_content_title_load_item (db : DB) (p : string) (t : sqlval) :
  exists db',
    update_content_title db (Some p) t = OK db'
    /\ load_item db' (Some p) = (i ← load_item db (Some p); OK (retitle t i))
    /\ (forall q, q <> Some p -> load_item_row db' q = load_item_row db q)
    /\ map Directory (Content db') = map Directory (Content db).
Proof.
  eexists. split; [reflexivity|]. split; [|split].
  - unfold load_item, utf8_decorator, log_decorator.
    rewrite load_item_row_update by reflexivity.
    rewrite sql_eq_Some_refl. apply content_item_retitle.
  - intros q Hq. rewrite load_item_row_update by reflexivity.
    rewrite sql_eq_other by exact Hq. reflexivity.
  - apply update_where_Directory. reflexivity.
Qed.

(** ** Listings by kind *)

Lemma comprehension_map {A B} (f : A -> result B) (g : A -> B) rows :
  (forall x, x ∈ rows -> f x = OK (g x)) ->
  comprehension f rows = OK (map g rows).
Proof.
  induction rows as [|x rows IH]; intros H; [reflexivity|].
  simpl. rewrite (H x) by left. simpl. rewrite IH; [reflexivity|].
  intros y Hy. apply H. right. exact Hy.
Qed.

Lemma get_content_items_rows_kind db status mediatype :
  truthy mediatype = true ->
  Permutation
    (List.filter (fun r => sql_eq (Status r) status
                           && sql_eq (Mediatype r) mediatype) (Content db))
    (get_content_items_rows db status mediatype).
Proof.
  intros Ht. unfold get_content_items_rows. rewrite Ht. apply order_by_Permutation.
Qed.

Lemma get_content_items_rows_no_kind db status mediatype :
  truthy mediatype = false ->
  Permutation
    (List.filter (fun r => sql_eq (Status r) status) (Content db))
    (get_content_items_rows db status mediatype).
Proof.
  intros Ht. unfold get_content_items_rows. rewrite Ht. apply order_by_Permutation.
Qed.

Lemma rows_of_kind db status k r :
  k <> "" ->
  r ∈ get_content_items_rows db status (Some k) -> Mediatype r = Some k.
Proof.
  intros Hk Hr.
  assert (Ht : truthy (Some k) = true).
  { simpl. apply negb_true_iff, String.eqb_neq, Hk. }
  rewrite <- (get_content_items_rows_kind db status (Some k) Ht) in Hr.
  apply elem_of_filterb in Hr as [_ Hr]. apply andb_true_iff in Hr as [_ Hr].
  apply sql_eq_Some, Hr.
Qed.

Lemma mapped_rows_paths rows items :
  comprehension (fun x => content_item_from_db (Some x)) rows = OK items ->
  map item_path items = map Directory rows.
Proof.
  rewrite comprehension_OK_Forall2. induction 1 as [|r i rows items Hri _ IH].
  - reflexivity.
  - apply content_item_title in Hri as [_ Hp]. simpl. rewrite Hp, IH. reflexivity.
Qed.

(** get_content_items(status, 'movie') never raises: it returns movie
    entries only, one for each Content row with that status and kind
    'movie'. Likewise get_content_items(status, 'tvshow') returns one
    episode entry for each row with that status and kind 'tvshow'. *)
Theorem get_content_items_of_kind (db : DB) (status : sqlval) :
  (exists items,
      get_content_items db status (Some "movie") = OK items
      /\ Forall is_movie_item items
      /\ Permutation (map item_path items)
           (map Directory
              (List.filter (fun r => sql_eq (Status r) status
                                     && sql_eq (Mediatype r) (Some "movie"))
                 (Content db))))
  /\ (exists items,
        get_content_items db status (Some "tvshow") = OK items
        /\ Forall (fun i => exists s, is_episode_of s i) items
        /\ Permutation (map item_path items)
             (map Directory
                (List.filter (fun r => sql_eq (Status r) status
                                       && sql_eq (Mediatype r) (Some "tvshow"))
                   (Content db)))).
Proof.
  split.
  - assert (H : get_content_items db status (Some "movie")
                = OK (map (fun r => MovieItem (Directory r) (Title r) "movie")
                        (get_content_items_rows db status (Some "movie")))).
    { unfold get_content_items, log_decorator. apply comprehension_map.
      intros r Hr. apply rows_of_kind in Hr; [|discriminate].
      simpl. rewrite Hr. reflexivity. }
    eexists. split; [exact H|]. split.
    + apply List.Forall_forall. intros i Hi. apply in_map_iff in Hi as (r & <- & _).
      exists (Directory r), (Title r). reflexivity.
    + rewrite (mapped_rows_paths _ _ H).
      rewrite <- (get_content_items_rows_kind db status (Some "movie")) by reflexivity.
      reflexivity.
  - assert (H : get_content_items db status (Some "tvshow")
                = OK (map (fun r => EpisodeItem (Directory r) (Title r) "tvshow"
                                      (Show_Title r))
                        (get_content_items_rows db status (Some "tvshow")))).
    { unfold get_content_items, log_decorator. apply comprehension_map.
      intros r Hr. apply rows_of_kind in Hr; [|discriminate].
      simpl. rewrite Hr. reflexivity. }
    eexists. split; [exact H|]. split.
    + apply List.Forall_forall. intros i Hi. apply in_map_iff in Hi as (r & <- & _).
      exists (Show_Title r), (Directory r), (Title r). reflexivity.
    + rewrite (mapped_rows_paths _ _ H).
      rewrite <- (get_content_items_rows_kind db status (Some "tvshow")) by reflexivity.
      reflexivity.
Qed.

(** Asking get_content_items for a kind that is neither 'movie' nor
    'tvshow' (and not empty) raises the mapping error as soon as a row
    with that status and kind exists, and returns the empty list when none
    does. *)
Theorem get_content_items_unknown_kind (db : DB) (status : sqlval) (k : string) :
  k <> "" -> k <> "movie" -> k <> "tvshow" ->
  get_content_items db status (Some k)
  = if existsb (fun r => sql_eq (Status r) status && sql_eq (Mediatype r) (Some k))
         (Content db)
    then Raise ValueError else OK [].
Proof.
  intros Hk Hm Ht.
  assert (Htr : truthy (Some k) = true)
    by (simpl; apply negb_true_iff, String.eqb_neq, Hk).
  pose proof (get_content_items_rows_kind db status (Some k) Htr) as Hperm.
  pose proof (rows_of_kind db status k) as Hkind.
  unfold get_content_items, log_decorator.
  destruct (get_content_items_rows db status (Some k)) as [|r rows].
  - symmetry in Hperm. apply Permutation_nil in Hperm.
    destruct (existsb _ (Content db)) eqn:E; [|reflexivity].
    apply existsb_exists in E as (r & Hr & E).
    assert (Hin : In r (List.filter
                          (fun r => sql_eq (Status r) status
                                    && sql_eq (Mediatype r) (Some k)) (Content db)))
      by (apply filter_In; auto).
    rewrite Hperm in Hin. destruct Hin.
  - assert (Hr : r ∈ List.filter
                       (fun r => sql_eq (Status r) status
                                 && sql_eq (Mediatype r) (Some k)) (Content db))
      by (rewrite Hperm; left).
    apply elem_of_filterb in Hr as [Hr E].
    assert (Hex : existsb (fun r => sql_eq (Status r) status
                                    && sql_eq (Mediatype r) (Some k)) (Content db)
                  = true).
    { apply existsb_exists. exists r. split; [apply list_elem_of_In, Hr|exact E]. }
    rewrite Hex. simpl. rewrite (Hkind r Hk) by left. simpl.
    apply String.eqb_neq in Hm, Ht. rewrite Hm, Ht. reflexivity.
Qed.

Lemma get_content_items_unknown_kind_witness :
  get_content_items
    (MkDB [ContentRow (Some "/s") (Some "Song") (Some "music") (Some "staged") None]
       [] [])
    (Some "staged") (Some "music")
  = Raise ValueError.
Proof.
  apply (get_content_items_unknown_kind
           (MkDB [ContentRow (Some "/s") (Some "Song") (Some "music")
                    (Some "staged") None] [] [])
           (Some "staged") "music"); discriminate.
Defined.

(** Without a kind filter, a get_content_items that returns has one entry
    for each Content row with the status, carrying the directory of its
    row. *)
Theorem get_content_items_complete
    (db : DB) (status mediatype : sqlval) (items : list ContentItem) :
  truthy mediatype = false ->
  get_content_items db status mediatype = OK items ->
  Permutation (map item_path items)
    (map Directory (List.filter (fun r => sql_eq (Status r) status) (Content db))).
Proof.
  intros Ht H. unfold get_content_items, log_decorator in H.
  rewrite (mapped_rows_paths _ _ H).
  rewrite <- (get_content_items_rows_no_kind db status mediatype Ht). reflexivity.
Qed.

Lemma get_content_items_complete_witness :
  Permutation
    (map item_path
       [MovieItem (Some "/2") (Some "Archer") "movie";
        MovieItem (Some "/1") (Some "The Office") "movie";
        MovieItem (Some "/3") (Some "The Wire") "movie"])
    (map Directory
       (List.filter (fun r => sql_eq (Status r) (Some "staged"))
          (Content office_archer_wire))).
Proof.
  apply (get_content_items_complete office_archer_wire (Some "staged") None);
    reflexivity.
Defined.

(** ** Databases written by the store *)

Lemma store_row_known r : store_row r -> known_kind (Mediatype r) = true.
Proof. unfold known_kind. intros [[-> _]| ->]; reflexivity. Qed.

Lemma existsb_none {A} (f : A -> bool) (l : list A) :
  (forall x, x ∈ l -> f x = false) -> existsb f l = false.
Proof.
  intros H. destruct (existsb f l) eqn:E; [|reflexivity].
  apply existsb_exists in E as (x & Hx & E).
  rewrite (H x) in E by (apply list_elem_of_In, Hx). discriminate.
Qed.

Lemma load_item_row_elem db q r :
  load_item_row db q = Some r -> r ∈ Content db /\ Directory r = q.
Proof.
  unfold load_item_row, fetchone. intros H.
  destruct (List.filter _ (Content db)) as [|r' t] eqn:E; [discriminate|].
  injection H as ->.
  assert (Hr : r ∈ List.filter (fun r => sql_eq (Directory r) q) (Content db))
    by (rewrite E; left).
  apply elem_of_filterb in Hr as [Hr Hd]. split; [exact Hr|].
  apply sql_eq_true in Hd as (x & -> & ->). reflexivity.
Qed.

(** In a database that only calls of the store have written, starting from
    the empty one, the mapping error cannot occur: get_content_items and
    get_show_episodes never raise, and load_item returns an entry with
    directory p for every path p for which path_exists is True. *)
Theorem store_built_reads_succeed
    (cs : list call) (db : DB) (status mediatype show_title : sqlval) (p : string) :
  run_all init cs = OK db ->
  raises (get_content_items db status mediatype) = false
  /\ raises (get_show_episodes db status show_title) = false
  /\ (path_exists db (Some p) None = true ->
      exists i, load_item db (Some p) = OK i /\ item_path i = Some p).
Proof.
  intros Hrun. apply run_all_store_built in Hrun. unfold store_built in Hrun.
  rewrite Forall_forall in Hrun. split; [|split].
  - rewrite get_content_items_raises. apply existsb_none. intros r Hr.
    apply get_content_items_rows_elem in Hr as [Hr _].
    rewrite store_row_known by auto. reflexivity.
  - rewrite get_show_episodes_raises. apply existsb_none. intros r Hr.
    apply get_show_episodes_rows_elem in Hr as [Hr _].
    rewrite store_row_known by auto. reflexivity.
  - intros Hex. unfold load_item, utf8_decorator, log_decorator.
    destruct (load_item_row db (Some p)) as [r|] eqn:E.
    + apply load_item_row_elem in E as [Hr Hd].
      destruct (content_item_from_db (Some r)) as [i|e] eqn:Hi.
      * exists i. split; [reflexivity|].
        apply content_item_title in Hi as [_ Hp]. congruence.
      * pose proof (content_item_from_db_raises r) as Hraise.
        rewrite Hi, store_row_known in Hraise by auto. discriminate.
    + rewrite path_exists_existsb in Hex. simpl in Hex.
      apply existsb_exists in Hex as (r & Hr & Hd).
      unfold load_item_row, fetchone in E.
      assert (Hin : In r (List.filter (fun r => sql_eq (Directory r) (Some p))
                            (Content db))) by (apply filter_In; auto).
      destruct (List.filter _ (Content db)); [destruct Hin|discriminate].
Qed.

Lemma store_built_reads_succeed_witness :
  raises (get_content_items one_staged_movie (Some "staged") None) = false
  /\ raises (get_show_episodes one_staged_movie (Some "staged") (Some "X")) = false
  /\ (path_exists one_staged_movie (Some "/a") None = true ->
      exists i, load_item one_staged_movie (Some "/a") = OK i
                /\ item_path i = Some "/a").
Proof.
  apply (store_built_reads_succeed
           [Add_content_item (Some "/a") (Some "Alien") (Some "movie") None]).
  reflexivity.
Defined.

(** In such a database get_show_episodes(status, show_title) returns
    episode entries only, each with the show title asked for. *)
Theorem get_show_episodes_of_show
    (cs : list call) (db : DB) (status show_title : sqlval) :
  run_all init cs = OK db ->
  exists items,
    get_show_episodes db status show_title = OK items
    /\ Forall (is_episode_of show_title) items
    /\ Permutation (map item_path items)
         (map Directory
            (List.filter (fun r => sql_eq (Status r) status
                                   && sql_eq (Show_Title r) show_title)
               (Content db))).
Proof.
  intros Hrun. apply run_all_store_built in Hrun. unfold store_built in Hrun.
  rewrite Forall_forall in Hrun.
  assert (H : get_show_episodes db status show_title
              = OK (map (fun r => EpisodeItem (Directory r) (Title r) "tvshow"
                                    show_title)
                      (get_show_episodes_rows db status show_title))).
  { unfold get_show_episodes, log_decorator. apply comprehension_map.
    intros r Hr. apply get_show_episodes_rows_elem in Hr as (Hr & _ & Hs).
    apply sql_eq_true in Hs as (t & Hs & ->).
    destruct (Hrun r Hr) as [[_ Hnull]|Htv]; [congruence|].
    simpl. rewrite Htv, Hs. reflexivity. }
  eexists. split; [exact H|]. split.
  - apply List.Forall_forall. intros i Hi. apply in_map_iff in Hi as (r & <- & _).
    exists (Directory r), (Title r). reflexivity.
  - unfold get_show_episodes, log_decorator in H.
    rewrite (mapped_rows_paths _ _ H). unfold get_show_episodes_rows.
    rewrite <- order_by_Permutation. reflexivity.
Qed.

Lemma get_show_episodes_of_show_witness :
  exists items,
    get_show_episodes
      (MkDB [episode "/w1" "Pilot" "staged" "The Wire"] [] [])
      (Some "staged") (Some "The Wire") = OK items
    /\ Forall (is_episode_of (Some "The Wire")) items
    /\ Permutation (map item_path items)
         (map Directory
            (List.filter (fun r => sql_eq (Status r) (Some "staged")
                                   && sql_eq (Show_Title r) (Some "The Wire"))
               [episode "/w1" "Pilot" "staged" "The Wire"])).
Proof.
  apply (get_show_episodes_of_show
           [Add_content_item (Some "/w1") (Some "Pilot") (Some "tvshow")
              (Some "The Wire")]
           (MkDB [episode "/w1" "Pilot" "staged" "The Wire"] [] [])).
  reflexivity.
Defined.

(** For a path p that Content does not hold, add_content_item(p, t,
    'tvshow', show) succeeds; load_item(p) then returns the episode entry
    (p, t, 'tvshow', show), path_exists(p, 'staged') is True, and a show
    title that is not None is among get_all_shows('staged'). *)
Theorem add_episode_then_read (db : DB) (p t : string) (show_title : sqlval) :
  absent p (Content db) ->
  exists db',
    add_content_item db (Some p) (Some t) (Some "tvshow") show_title = OK db'
    /\ load_item db' (Some p)
       = OK (EpisodeItem (Some p) (Some t) "tvshow" show_title)
    /\ path_exists db' (Some p) (Some "staged") = true
    /\ forall show, show_title = Some show ->
                    show ∈ get_all_shows db' (Some "staged").
Proof.
  intros H. eexists. split; [reflexivity|].
  set (row := ContentRow (Some p) (Some t) (Some "tvshow") (Some "staged") show_title).
  assert (Hc : Content (with_Content db (insert_or_ignore row (Content db)))
               = (Content db ++ [row])%list).
  { simpl. apply (insert_or_ignore_absent p); [exact H|reflexivity]. }
  assert (Hin : row ∈ (Content db ++ [row])%list)
    by (apply elem_of_app; right; left).
  split; [|split].
  - unfold load_item, utf8_decorator, log_decorator, load_item_row. rewrite Hc.
    rewrite List.filter_app, absent_filter by exact H.
    simpl. rewrite String.eqb_refl. reflexivity.
  - apply path_exists_true. exists row. rewrite Hc. auto.
  - intros show ->. apply get_all_shows_elem. exists row. rewrite Hc. auto.
Qed.

Lemma add_episode_then_read_witness :
  exists db',
    add_content_item one_staged_movie (Some "/w1") (Some "Pilot") (Some "tvshow")
      (Some "The Wire") = OK db'
    /\ load_item db' (Some "/w1")
       = OK (EpisodeItem (Some "/w1") (Some "Pilot") "tvshow" (Some "The Wire"))
    /\ path_exists db' (Some "/w1") (Some "staged") = true
    /\ forall show, Some "The Wire" = Some show ->
                    show ∈ get_all_shows db' (Some "staged").
Proof.
  apply (add_episode_then_read one_staged_movie "/w1" "Pilot" (Some "The Wire")).
  intros r Hr. apply list_elem_of_singleton in Hr. subst r. discriminate.
Defined.

(** ** Bulk deletes *)

Lemma filter_delete_where {A} (cond : A -> bool) (t : list A) :
  List.filter cond (delete_where cond t) = [].
Proof.
  unfold delete_where. induction t as [|x t IH]; [reflexivity|].
  simpl. destruct (cond x) eqn:E; simpl; [exact IH|]. rewrite E. exact IH.
Qed.

(** After remove_all_content_items(status, mediatype) with a non-empty
    mediatype, get_content_items(status, mediatype) returns the empty list;
    the rows left are those that did not have both that status and that
    kind. *)
Theorem remove_all_content_items_empties
    (db : DB) (status mediatype : sqlval) :
  truthy mediatype = true ->
  exists db',
    remove_all_content_items db status mediatype = OK db'
    /\ get_content_items db' status mediatype = OK []
    /\ forall r, r ∈ Content db' <->
                 r ∈ Content db
                 /\ ~ (sql_eq (Status r) status = true
                       /\ sql_eq (Mediatype r) mediatype = true).
Proof.
  intros Ht. eexists. split; [reflexivity|]. split.
  - unfold get_content_items, log_decorator, get_content_items_rows.
    rewrite Ht. simpl Content. rewrite filter_delete_where. reflexivity.
  - intros r. simpl. rewrite delete_where_elem, andb_false_iff.
    destruct (sql_eq (Status r) status), (sql_eq (Mediatype r) mediatype);
      intuition congruence.
Qed.

Lemma remove_all_content_items_empties_witness :
  exists db',
    remove_all_content_items two_shows (Some "staged") (Some "tvshow") = OK db'
    /\ get_content_items db' (Some "staged") (Some "tvshow") = OK []
    /\ forall r, r ∈ Content db' <->
                 r ∈ Content two_shows
                 /\ ~ (sql_eq (Status r) (Some "staged") = true
                       /\ sql_eq (Mediatype r) (Some "tvshow") = true).
Proof.
  apply (remove_all_content_items_empties two_shows (Some "staged") (Some "tvshow")).
  reflexivity.
Defined.

(** After remove_all_show_episodes(status, show) the show has no episode
    left under that status: get_show_episodes(status, show) returns the
    empty list and get_all_shows(status) no longer names the show, while it
    names every other show exactly as before. *)
Theorem remove_all_show_episodes_empties
    (db : DB) (status : sqlval) (show : string) :
  exists db',
    remove_all_show_episodes db status (Some show) = OK db'
    /\ get_show_episodes db' status (Some show) = OK []
    /\ (show ∉ get_all_shows db' status)
    /\ forall other, other <> show ->
         (other ∈ get_all_shows db' status <-> other ∈ get_all_shows db status).
Proof.
  eexists. split; [reflexivity|]. split; [|split].
  - unfold get_show_episodes, log_decorator, get_show_episodes_rows.
    simpl Content. rewrite filter_delete_where. reflexivity.
  - rewrite get_all_shows_elem. intros (r & Hr & Hs & Ht).
    simpl in Hr. apply delete_where_elem in Hr as [_ Hr].
    rewrite Hs, Ht, sql_eq_Some_refl in Hr. discriminate.
  - intros other Hne. rewrite !get_all_shows_elem. simpl Content. split.
    + intros (r & Hr & H). apply delete_where_elem in Hr as [Hr _]. eauto.
    + intros (r & Hr & Hs & Ht). exists r. split; [|auto].
      apply delete_where_elem. split; [exact Hr|].
      rewrite Ht. apply andb_false_iff. right.
      apply sql_eq_other. congruence.
Qed.

(** ** Synced *)

Lemma synced_item_dict_lookups r :
  synced_item_dict r !! "dir" = Some (Synced_Directory r)
  /\ synced_item_dict r !! "label" = Some (Label r)
  /\ synced_item_dict r !! "type" = Some (Synced_Type r).
Proof.
  unfold synced_item_dict. split; [|split].
  - apply lookup_insert_eq.
  - rewrite lookup_insert_ne by discriminate. apply lookup_insert_eq.
  - rewrite !lookup_insert_ne by discriminate. apply lookup_singleton_eq.
Qed.

Lemma synced_item_dict_inj r1 r2 :
  synced_item_dict r1 = synced_item_dict r2 -> r1 = r2.
Proof.
  intros H.
  destruct (synced_item_dict_lookups r1) as (Hd1 & Hl1 & Ht1).
  destruct (synced_item_dict_lookups r2) as (Hd2 & Hl2 & Ht2).
  rewrite H in Hd1, Hl1, Ht1. destruct r1, r2. simpl in *. congruence.
Qed.

Lemma get_synced_dirs_Permutation db :
  Permutation (get_synced_dirs db) (map synced_item_dict (Synced db)).
Proof.
  unfold get_synced_dirs, utf8_decorator, log_decorator, get_synced_dirs_rows.
  apply Permutation_map. symmetry. apply order_by_Permutation.
Qed.

(** get_synced_dirs lists every Synced row, each once, as a dict from
    which the three columns of the row can be read back. *)
Theorem get_synced_dirs_complete (db : DB) :
  Permutation (get_synced_dirs db) (map synced_item_dict (Synced db))
  /\ length (get_synced_dirs db) = length (Synced db)
  /\ forall r1 r2, synced_item_dict r1 = synced_item_dict r2 -> r1 = r2.
Proof.
  pose proof (get_synced_dirs_Permutation db) as H.
  split; [exact H|]. split; [|exact synced_item_dict_inj].
  rewrite (Permutation_length H). apply length_map.
Qed.

Lemma sql_eq_comm a b : sql_eq a b = sql_eq b a.
Proof. destruct a, b; simpl; try reflexivity. apply String.eqb_sym. Qed.

Lemma filter_delete_other p q t :
  q <> Some p ->
  List.filter (fun r => sql_eq (Synced_Directory r) q)
    (delete_where (fun r => sql_eq (Synced_Directory r) (Some p)) t)
  = List.filter (fun r => sql_eq (Synced_Directory r) q) t.
Proof.
  intros Hq. unfold delete_where. induction t as [|r t IH]; [reflexivity|].
  simpl. destruct (sql_eq (Synced_Directory r) (Some p)) eqn:Ep; simpl.
  - apply sql_eq_Some in Ep. rewrite Ep, sql_eq_comm, sql_eq_other by exact Hq.
    exact IH.
  - rewrite IH. reflexivity.
Qed.

(** add_synced_dir(label, p, kind) is an upsert by directory: afterwards
    exactly one Synced row has directory p, the row (p, label, kind), it is
    listed by get_synced_dirs, and the rows of every other directory are
    as before. *)
Theorem add_synced_dir_upsert (db : DB) (p : string) (label mediatype : sqlval) :
  exists db',
    add_synced_dir db label (Some p) mediatype = OK db'
    /\ List.filter (fun r => sql_eq (Synced_Directory r) (Some p)) (Synced db')
       = [SyncedRow (Some p) label mediatype]
    /\ synced_item_dict (SyncedRow (Some p) label mediatype) ∈ get_synced_dirs db'
    /\ forall q, q <> Some p ->
         List.filter (fun r => sql_eq (Synced_Directory r) q) (Synced db')
         = List.filter (fun r => sql_eq (Synced_Directory r) q) (Synced db).
Proof.
  eexists. split; [reflexivity|]. simpl Synced. split; [|split].
  - rewrite List.filter_app, filter_delete_where. simpl.
    rewrite String.eqb_refl. reflexivity.
  - rewrite (get_synced_dirs_Permutation _). simpl Synced.
    apply list_elem_of_In, in_map, in_or_app. right. left. reflexivity.
  - intros q Hq. rewrite List.filter_app, filter_delete_other by exact Hq.
    change (List.filter (fun r => sql_eq (Synced_Directory r) q)
              [SyncedRow (Some p) label mediatype])
      with (if sql_eq (Some p) q then [SyncedRow (Some p) label mediatype] else []).
    rewrite sql_eq_comm, sql_eq_other by exact Hq. apply app_nil_r.
Qed.

(** remove_synced_dir(p) leaves no entry with directory p in
    get_synced_dirs and keeps the entries of the other directories;
    remove_all_synced_dirs leaves get_synced_dirs empty. Neither touches
    Content or Blocked. *)
Theorem remove_synced_dirs (db : DB) (p : string) :
  (exists db',
      remove_synced_dir db (Some p) = OK db'
      /\ (forall r, synced_item_dict r ∈ get_synced_dirs db' <->
                    synced_item_dict r ∈ get_synced_dirs db
                    /\ Synced_Directory r <> Some p)
      /\ Content db' = Content db /\ Blocked db' = Blocked db)
  /\ (exists db',
        remove_all_synced_dirs db = OK db'
        /\ get_synced_dirs db' = []
        /\ Content db' = Content db /\ Blocked db' = Blocked db).
Proof.
  assert (Hin : forall d r, synced_item_dict r ∈ get_synced_dirs d <-> r ∈ Synced d).
  { intros d r. rewrite (get_synced_dirs_Permutation d).
    rewrite list_elem_of_In, in_map_iff. split.
    - intros (r' & Heq & Hr'). apply synced_item_dict_inj in Heq. subst r'.
      apply list_elem_of_In, Hr'.
    - intros Hr. exists r. split; [reflexivity|apply list_elem_of_In, Hr]. }
  split.
  - eexists. split; [reflexivity|]. split; [|split; reflexivity].
    intros r. rewrite !Hin. simpl Synced. rewrite delete_where_elem.
    split; intros [Hr H]; (split; [exact Hr|]).
    + intros Hd. rewrite Hd, sql_eq_Some_refl in H. discriminate.
    + apply sql_eq_other, H.
  - eexists. split; [reflexivity|]. repeat split.
Qed.

(** ** Blocked: removing, and None *)

Lemma bool_eq_of_iff (a b : bool) : (a = true <-> b = true) -> a = b.
Proof. destruct a, b; intros [H1 H2]; auto; symmetry; auto. Qed.

Lemma blocked_matches_false v k r :
  blocked_matches (Some v) (Some k) r = false <-> r <> BlockedRow v k.
Proof.
  rewrite <- blocked_matches_true.
  destruct (blocked_matches (Some v) (Some k) r); split; congruence.
Qed.

(** remove_blocked(v, k) returns normally; afterwards check_blocked(v, k)
    is False, and check_blocked of every other pair answers as before. *)
Theorem remove_blocked_removes (db : DB) (v k : string) :
  exists db',
    remove_blocked db (Some v) (Some k) = OK db'
    /\ check_blocked db' (Some v) (Some k) = false
    /\ (forall v' k', (v', k') <> (v, k) ->
          check_blocked db' (Some v') (Some k') = check_blocked db (Some v') (Some k'))
    /\ Content db' = Content db /\ Synced db' = Synced db.
Proof.
  eexists. split; [reflexivity|]. split; [|split; [|split; reflexivity]].
  - apply check_blocked_false. simpl. rewrite delete_where_elem.
    intros [_ H]. apply blocked_matches_false in H. congruence.
  - intros v' k' Hne. apply bool_eq_of_iff. rewrite !check_blocked_true. simpl.
    rewrite delete_where_elem, blocked_matches_false. split.
    + tauto.
    + intros H. split; [exact H|]. congruence.
Qed.

(** Blocking a pair that was not blocked and unblocking it again gives
    back the database that was there. *)
Theorem add_then_remove_blocked (db db1 : DB) (v k : string) :
  check_blocked db (Some v) (Some k) = false ->
  add_blocked_item db (Some v) (Some k) = OK db1 ->
  remove_blocked db1 (Some v) (Some k) = OK db.
Proof.
  intros Hc Hadd.
  unfold add_blocked_item, utf8_decorator, log_decorator in Hadd.
  rewrite Hc in Hadd. cbn in Hadd. injection Hadd as <-.
  assert (Hdel : delete_where (blocked_matches (Some v) (Some k))
                   (Blocked db ++ [BlockedRow v k]) = Blocked db).
  { unfold delete_where. rewrite List.filter_app. cbn [List.filter].
    rewrite (proj2 (blocked_matches_true v k _) eq_refl). cbn [negb].
    rewrite app_nil_r. apply delete_where_none.
    intros r Hr. apply blocked_matches_false. intros ->.
    apply check_blocked_false in Hc. contradiction. }
  unfold remove_blocked, utf8_decorator, log_decorator, with_Blocked.
  cbn [Blocked Content Synced]. rewrite Hdel. destruct db; reflexivity.
Qed.

Lemma add_then_remove_blocked_witness :
  remove_blocked
    (MkDB [] [] [BlockedRow "Trailer" "movie"]) (Some "Trailer") (Some "movie")
  = OK init.
Proof.
  apply (add_then_remove_blocked init _ "Trailer" "movie"); reflexivity.
Defined.

Lemma filter_nothing {A} (f : A -> bool) (t : list A) :
  (forall x, f x = false) -> List.filter f t = [].
Proof.
  intros H. induction t as [|x t IH]; [reflexivity|].
  simpl. rewrite H. exact IH.
Qed.

(** None is never blocked and cannot be blocked: check_blocked with None
    for the value or the kind is False, remove_blocked then changes
    nothing, and add_blocked_item raises the IntegrityError of the NOT NULL
    columns. *)
Theorem blocked_none (db : DB) (value mediatype : sqlval) :
  value = None \/ mediatype = None ->
  check_blocked db value mediatype = false
  /\ add_blocked_item db value mediatype = Raise IntegrityError
  /\ remove_blocked db value mediatype = OK db.
Proof.
  intros Hnone.
  assert (Hno : forall r, blocked_matches value mediatype r = false).
  { intros r. unfold blocked_matches.
    destruct Hnone as [-> | ->]; [reflexivity|apply andb_false_r]. }
  assert (Hc : check_blocked db value mediatype = false).
  { unfold check_blocked, utf8_decorator, log_decorator.
    rewrite filter_nothing by exact Hno. reflexivity. }
  split; [exact Hc|]. split.
  - unfold add_blocked_item, utf8_decorator, log_decorator. rewrite Hc. simpl.
    destruct Hnone as [-> | ->]; [reflexivity|]. destruct value; reflexivity.
  - unfold remove_blocked, utf8_decorator, log_decorator.
    rewrite delete_where_none by (intros; apply Hno).
    destruct db; reflexivity.
Qed.

Lemma blocked_none_witness :
  check_blocked two_shows None (Some "movie") = false
  /\ add_blocked_item two_shows None (Some "movie") = Raise IntegrityError
  /\ remove_blocked two_shows None (Some "movie") = OK two_shows.
Proof.
  apply (blocked_none two_shows None (Some "movie")). left. reflexivity.
Defined.

(** ** The listing of Blocked *)

Lemma compare_refl s : String.compare s s = Eq.
Proof.
  induction s as [|c s IH]; simpl; [reflexivity|].
  unfold Ascii.compare. rewrite N.compare_refl. exact IH.
Qed.

Lemma compare_Lt_Gt a b : String.compare a b = Lt -> String.compare b a = Gt.
Proof. intros H. rewrite String.compare_antisym, H. reflexivity. Qed.

Lemma compare_Gt_Lt a b : String.compare a b = Gt -> String.compare b a = Lt.
Proof. intros H. rewrite String.compare_antisym, H. reflexivity. Qed.

Lemma compare_Lt_trans a b c :
  String.compare a b = Lt -> String.compare b c = Lt -> String.compare a c = Lt.
Proof.
  intros Hab Hbc.
  assert (Hle : String.leb a c = true).
  { apply (string_leb_trans a b c); unfold String.leb;
      [rewrite Hab|rewrite Hbc]; reflexivity. }
  unfold String.leb in Hle. destruct (String.compare a c) eqn:Hac.
  - apply String.compare_eq_iff in Hac. subst c.
    apply compare_Lt_Gt in Hab. congruence.
  - reflexivity.
  - discriminate.
Qed.

Lemma blocked_le_iff a b :
  blocked_le a b = true <->
  String.compare (Value a) (Value b) = Lt
  \/ (Value a = Value b
      /\ String.leb (Blocked_Type a) (Blocked_Type b) = true).
Proof.
  unfold blocked_le. destruct (String.compare (Value a) (Value b)) eqn:E.
  - apply String.compare_eq_iff in E. split; [auto|].
    intros [H|[_ H]]; [discriminate|exact H].
  - split; auto.
  - split; [discriminate|]. intros [H|[H _]]; [discriminate|].
    rewrite H, compare_refl in E. discriminate.
Qed.

Lemma blocked_le_total a b : blocked_le a b = true \/ blocked_le b a = true.
Proof.
  unfold blocked_le. destruct (String.compare (Value a) (Value b)) eqn:E.
  - apply String.compare_eq_iff in E. rewrite E, compare_refl.
    apply String.leb_total.
  - left. reflexivity.
  - right. rewrite (compare_Gt_Lt _ _ E). reflexivity.
Qed.

Lemma blocked_le_trans a b c :
  blocked_le a b = true -> blocked_le b c = true -> blocked_le a c = true.
Proof.
  rewrite !blocked_le_iff. intros [Hab|[Hab Hab']] [Hbc|[Hbc Hbc']].
  - left. eapply compare_Lt_trans; eassumption.
  - left. rewrite <- Hbc. exact Hab.
  - left. rewrite Hab. exact Hbc.
  - right. split; [congruence|]. eapply string_leb_trans; eassumption.
Qed.

Lemma insert_by_value_type_Permutation x l :
  Permutation (x :: l) (insert_by_value_type x l).
Proof.
  induction l as [|y l IH]; simpl; [reflexivity|].
  destruct (blocked_le x y); [reflexivity|].
  rewrite perm_swap. constructor. exact IH.
Qed.

Lemma order_by_value_type_Permutation l :
  Permutation l (order_by_value_type l).
Proof.
  induction l as [|x l IH]; simpl; [constructor|].
  rewrite <- insert_by_value_type_Permutation. constructor. exact IH.
Qed.

Lemma insert_by_value_type_Sorted x l :
  Sorted (fun a b => blocked_le a b = true) l ->
  Sorted (fun a b => blocked_le a b = true) (insert_by_value_type x l).
Proof.
  induction 1 as [|y l Hl IH Hy]; simpl.
  - repeat constructor.
  - destruct (blocked_le x y) eqn:Hxy.
    + constructor; [constructor; assumption|]. constructor. exact Hxy.
    + constructor; [exact IH|].
      assert (Hyx : blocked_le y x = true)
        by (destruct (blocked_le_total x y); congruence).
      destruct Hy as [|z l Hyz]; simpl.
      * constructor. exact Hyx.
      * destruct (blocked_le x z); constructor; assumption.
Qed.

Lemma order_by_value_type_Sorted l :
  Sorted (fun a b => blocked_le a b = true) (order_by_value_type l).
Proof.
  induction l as [|x l IH]; simpl; [constructor|].
  apply insert_by_value_type_Sorted, IH.
Qed.

Lemma blocked_item_dict_lookups r :
  blocked_item_dict r !! "value" = Some (Value r)
  /\ blocked_item_dict r !! "type" = Some (Blocked_Type r).
Proof.
  unfold blocked_item_dict. split.
  - apply lookup_insert_eq.
  - rewrite lookup_insert_ne by discriminate. apply lookup_singleton_eq.
Qed.

(** get_blocked_items lists every Blocked row once, as a dict of its two
    columns, in ascending order of the value and, among equal values, of
    the kind; no article is stripped. *)
Theorem get_blocked_items_sorted (db : DB) :
  exists rows,
    get_blocked_items db = map blocked_item_dict rows
    /\ Permutation rows (Blocked db)
    /\ StronglySorted
         (fun a b =>
            String.compare (Value a) (Value b) = Lt
            \/ (Value a = Value b
                /\ String.leb (Blocked_Type a) (Blocked_Type b) = true))
         rows
    /\ forall r, blocked_item_dict r !! "value" = Some (Value r)
                 /\ blocked_item_dict r !! "type" = Some (Blocked_Type r).
Proof.
  exists (get_blocked_items_rows db). split; [reflexivity|].
  split; [symmetry; apply order_by_value_type_Permutation|].
  split; [|exact blocked_item_dict_lookups].
  assert (H : StronglySorted (fun a b => blocked_le a b = true)
                (get_blocked_items_rows db)).
  { apply Sorted_StronglySorted.
    - intros a b c. apply blocked_le_trans.
    - apply order_by_value_type_Sorted. }
  induction H as [|r rows Hs IH Hall]; constructor.
  - exact IH.
  - eapply Forall_impl; [exact Hall|]. intros b. apply blocked_le_iff.
Qed.

(** ** path_exists as the guard of load_item *)

(** load_item(p) ends in the TypeError of a missing row exactly when
    path_exists(p) is False; when path_exists(p) is True it maps the row
    found, so it returns an entry or raises the mapping error. *)
Theorem load_item_guard (db : DB) (p : string) :
  load_item db (Some p) = Raise TypeError <-> path_exists db (Some p) None = false.
Proof.
  rewrite path_exists_existsb. simpl.
  unfold load_item, utf8_decorator, log_decorator, load_item_row, fetchone.
  induction (Content db) as [|r t IH]; simpl.
  - split; reflexivity.
  - destruct (sql_eq (Directory r) (Some p)); simpl; [|exact IH].
    split; [|discriminate].
    destruct (py_eq (Mediatype r) "movie"); [discriminate|].
    destruct (py_eq (Mediatype r) "tvshow"); discriminate.
Qed.

(** ** Deletes that match nothing *)

(** Removing what is not there changes nothing: remove_content_item and
    remove_synced_dir of a path without row, and remove_blocked of a pair
    that is not blocked, return normally with the database as it was. *)
Theorem remove_absent (db : DB) (p v k : string) :
  absent p (Content db) ->
  (forall r, r ∈ Synced db -> Synced_Directory r <> Some p) ->
  check_blocked db (Some v) (Some k) = false ->
  remove_content_item db (Some p) = OK db
  /\ remove_synced_dir db (Some p) = OK db
  /\ remove_blocked db (Some v) (Some k) = OK db.
Proof.
  intros Hc Hs Hb.
  unfold remove_content_item, remove_synced_dir, remove_blocked,
    utf8_decorator, log_decorator.
  rewrite !delete_where_none.
  - destruct db; repeat split.
  - intros r Hr. apply blocked_matches_false. intros ->.
    apply check_blocked_false in Hb. contradiction.
  - intros r Hr. apply sql_eq_other, Hs, Hr.
  - intros r Hr. eapply absent_no_match; eassumption.
Qed.

Lemma remove_absent_witness :
  remove_content_item two_shows (Some "/zz") = OK two_shows
  /\ remove_synced_dir two_shows (Some "/zz") = OK two_shows
  /\ remove_blocked two_shows (Some "Teaser") (Some "movie") = OK two_shows.
Proof.
  apply (remove_absent two_shows "/zz" "Teaser" "movie").
  - intros r Hr. unfold two_shows, episode, staged_movie in Hr. simpl in Hr.
    repeat (apply elem_of_cons in Hr as [->|Hr]; [discriminate|]).
    inversion Hr.
  - intros r Hr. apply list_elem_of_singleton in Hr. subst r. discriminate.
  - reflexivity.
Defined.

(** ** The tables are independent *)

(** A call changes no table but the one its statement names. *)
Theorem run_frame (db db' : DB) (c : call) :
  run db c = OK db' ->
  (table_of c <> Content_table -> Content db' = Content db)
  /\ (table_of c <> Synced_table -> Synced db' = Synced db)
  /\ (table_of c <> Blocked_table -> Blocked db' = Blocked db).
Proof.
  destruct c; simpl;
    try (intros [= <-]; simpl; repeat split; intros H; congruence).
  - unfold add_content_item, utf8_decorator, log_decorator.
    destruct (py_eq mediatype "movie"); [|destruct (py_eq mediatype "tvshow")];
      intros [= <-]; simpl; repeat split; intros H; congruence.
  - unfold add_blocked_item, utf8_decorator, log_decorator.
    destruct (negb (check_blocked db value mediatype)).
    + destruct value, mediatype; simpl; try discriminate.
      intros [= <-]; simpl; repeat split; intros H; congruence.
    + intros [= <-]; simpl; repeat split; intros H; congruence.
Qed.

Lemma run_frame_witness :
  (table_of (Add_synced_dir (Some "Films") (Some "/films") (Some "movie"))
   <> Content_table ->
   Content (MkDB (Content two_shows)
              (Synced two_shows
               ++ [SyncedRow (Some "/films") (Some "Films") (Some "movie")])
              (Blocked two_shows))
   = Content two_shows)
  /\ (table_of (Add_synced_dir (Some "Films") (Some "/films") (Some "movie"))
      <> Synced_table ->
      Synced (MkDB (Content two_shows)
                (Synced two_shows
                 ++ [SyncedRow (Some "/films") (Some "Films") (Some "movie")])
                (Blocked two_shows))
      = Synced two_shows)
  /\ (table_of (Add_synced_dir (Some "Films") (Some "/films") (Some "movie"))
      <> Blocked_table ->
      Blocked (MkDB (Content two_shows)
                 (Synced two_shows
                  ++ [SyncedRow (Some "/films") (Some "Films") (Some "movie")])
                 (Blocked two_shows))
      = Blocked two_shows).
Proof.
  apply (run_frame two_shows _
           (Add_synced_dir (Some "Films") (Some "/films") (Some "movie"))).
  reflexivity.
Defined.

(** ** Primary keys *)

Lemma omap_filter_elem {A} (key : A -> sqlval) (f : A -> bool) (t : list A) x :
  x ∈ omap key (List.filter f t) -> x ∈ omap key t.
Proof.
  rewrite !list_elem_of_omap. intros (r & Hr & Hk).
  apply elem_of_filterb in Hr as [Hr _]. eauto.
Qed.

Lemma unique_keys_filter {A} (key : A -> sqlval) (f : A -> bool) (t : list A) :
  unique_keys key t -> unique_keys key (List.filter f t).
Proof.
  unfold unique_keys. induction t as [|r t IH]; simpl; [auto|].
  destruct (key r) as [x|] eqn:Ek.
  - intros H. apply NoDup_cons in H as [Hx Hnd].
    destruct (f r); simpl; [|auto]. rewrite Ek.
    apply NoDup_cons. split; [|auto].
    intros Hin. apply Hx. eapply omap_filter_elem, Hin.
  - intros H. destruct (f r); simpl; [rewrite Ek|]; auto.
Qed.

Lemma unique_keys_snoc {A} (key : A -> sqlval) (t : list A) (r : A) :
  unique_keys key t ->
  (forall x, key r = Some x -> Some x ∉ map key t) ->
  unique_keys key (t ++ [r]).
Proof.
  unfold unique_keys. intros Hnd Hnew. rewrite omap_app. simpl.
  destruct (key r) as [x|] eqn:Ek; simpl; [|rewrite app_nil_r; exact Hnd].
  apply NoDup_app. split; [exact Hnd|]. split; [|apply NoDup_singleton].
  intros y Hy Hy'. apply list_elem_of_singleton in Hy'. subst y.
  apply list_elem_of_omap in Hy as (r' & Hr' & Hk).
  apply (Hnew x eq_refl). rewrite <- Hk.
  apply list_elem_of_In, in_map, list_elem_of_In, Hr'.
Qed.

Lemma filter_none {A} (f : A -> bool) (t : list A) :
  (forall x, x ∈ t -> f x = false) -> List.filter f t = [].
Proof.
  induction t as [|x t IH]; intros H; [reflexivity|].
  simpl. rewrite (H x) by left. apply IH. intros y Hy. apply H. right. exact Hy.
Qed.

Lemma unique_keys_at_most_one {A} (key : A -> sqlval) (t : list A) (p : string) :
  unique_keys key t ->
  length (List.filter (fun r => sql_eq (key r) (Some p)) t) <= 1.
Proof.
  unfold unique_keys. induction t as [|r t IH]; simpl; [lia|].
  destruct (key r) as [x|] eqn:Ek; simpl.
  - intros H. apply NoDup_cons in H as [Hx Hnd].
    destruct (String.eqb_spec x p) as [->|_]; [|auto].
    simpl. rewrite filter_none; [simpl; lia|].
    intros r' Hr'. apply sql_eq_other. intros Hk. apply Hx.
    apply list_elem_of_omap. eauto.
  - auto.
Qed.

Lemma insert_or_ignore_unique r t :
  unique_keys Directory t -> unique_keys Directory (insert_or_ignore r t).
Proof.
  intros H. unfold insert_or_ignore.
  destruct (existsb (fun x => sql_eq (Directory x) (Directory r)) t) eqn:E;
    [exact H|].
  apply unique_keys_snoc; [exact H|]. intros x Hk Hin.
  apply list_elem_of_In, in_map_iff in Hin as (r' & Hr' & Hin).
  assert (Hex : existsb (fun x => sql_eq (Directory x) (Directory r)) t = true).
  { apply existsb_exists. exists r'. split; [exact Hin|].
    rewrite Hr', Hk. apply sql_eq_Some_refl. }
  congruence.
Qed.

Lemma omap_map_key {A} (key : A -> sqlval) (g : A -> A) (t : list A) :
  (forall r, key (g r) = key r) -> omap key (map g t) = omap key t.
Proof.
  intros Hg. induction t as [|r t IH]; [reflexivity|].
  simpl. rewrite Hg. destruct (key r); [f_equal|]; exact IH.
Qed.

Lemma update_where_keys path f t :
  (forall r, Directory (f r) = Directory r) ->
  omap Directory (update_where path f t) = omap Directory t.
Proof.
  intros Hf. unfold update_where. apply omap_map_key.
  intros r. destruct (sql_eq (Directory r) path); [apply Hf|reflexivity].
Qed.

Lemma upsert_unique path label mediatype t :
  unique_keys Synced_Directory t ->
  unique_keys Synced_Directory
    (delete_where (fun r => sql_eq (Synced_Directory r) path) t
     ++ [SyncedRow path label mediatype]).
Proof.
  intros H. apply unique_keys_snoc; [apply unique_keys_filter, H|].
  simpl. intros x -> Hin.
  apply list_elem_of_In, in_map_iff in Hin as (r' & Hr' & Hin).
  apply list_elem_of_In, delete_where_elem in Hin as [_ Hin].
  rewrite Hr', sql_eq_Some_refl in Hin. discriminate.
Qed.

Lemma run_primary_keys db c db' :
  primary_keys db -> run db c = OK db' -> primary_keys db'.
Proof.
  unfold primary_keys. intros [Hc Hs]. destruct c; simpl;
    try (intros [= <-]; simpl; split;
         first [assumption | apply unique_keys_filter; assumption]).
  - unfold add_content_item, utf8_decorator, log_decorator.
    destruct (py_eq mediatype "movie"); [|destruct (py_eq mediatype "tvshow")];
      intros [= <-]; simpl; split; try assumption;
      apply insert_or_ignore_unique, Hc.
  - intros [= <-]. simpl. split; [|exact Hs]. unfold unique_keys.
    rewrite update_where_keys by reflexivity. exact Hc.
  - intros [= <-]. simpl. split; [|exact Hs]. unfold unique_keys.
    rewrite update_where_keys by reflexivity. exact Hc.
  - intros [= <-]. simpl. split; [exact Hc|]. apply upsert_unique, Hs.
  - intros [= <-]. simpl. split; [exact Hc|]. constructor.
  - unfold add_blocked_item, utf8_decorator, log_decorator.
    destruct (negb (check_blocked db value mediatype)).
    + destruct value, mediatype; simpl; try discriminate.
      intros [= <-]. simpl. auto.
    + intros [= <-]. auto.
Qed.

(** The calls keep what PRIMARY KEY declares: from a database in which no
    two Content rows and no two Synced rows share a non-NULL directory,
    every sequence of calls that returns leads to such a database, where
    each path has at most one Content row and at most one Synced row. *)
Theorem primary_keys_kept (db0 db : DB) (cs : list call) (p : string) :
  primary_keys db0 ->
  run_all db0 cs = OK db ->
  primary_keys db
  /\ length (List.filter (fun r => sql_eq (Directory r) (Some p)) (Content db)) <= 1
  /\ length (List.filter (fun r => sql_eq (Synced_Directory r) (Some p))
               (Synced db)) <= 1.
Proof.
  intros H0 Hrun.
  assert (H : primary_keys db)
    by (eapply (run_all_invariant primary_keys); eauto using run_primary_keys).
  split; [exact H|]. destruct H as [Hc Hs].
  split; apply unique_keys_at_most_one; assumption.
Qed.

Lemma primary_keys_kept_witness :
  primary_keys one_staged_movie
  /\ length (List.filter (fun r => sql_eq (Directory r) (Some "/a"))
               (Content one_staged_movie)) <= 1
  /\ length (List.filter (fun r => sql_eq (Synced_Directory r) (Some "/a"))
               (Synced one_staged_movie)) <= 1.
Proof.
  apply (primary_keys_kept init one_staged_movie
           [Add_content_item (Some "/a") (Some "Alien") (Some "movie") None;
            Add_content_item (Some "/a") (Some "Aliens") (Some "movie") None]).
  - split; constructor.
  - reflexivity.
Defined.
